(** * Frame-count resampling of camera poses and of video frames

    A shallow embedding of [change_camera_framecount.py] and
    [change_video_framecount.py], and the properties of the two tools.

    Numbers.  Python integers are [Z].  Python floats are modelled by exact
    numbers: the fractional source position of the index mapping and the
    frame rates are rationals kept in lowest terms ([Qred], so that equal
    values are equal terms), and everything that goes through [math.sqrt],
    [math.acos], [math.cos] or [math.sin] is a real number.  The rounding of
    binary64 arithmetic is not part of the model: [floor (k * N / M)] is the
    floor of the exact quotient, and an equation between rotations is an
    equation between reals.

    Effects.  Exceptions are an error monad ([result]).  The video writer is
    the list of the frames written so far, kept when the loop raises.  The
    file system is a finite map from paths to contents, and each entry point
    returns a [run] record: exit status, lines printed on the error and
    output streams, and what was written.

    External code.  [cv2.addWeighted] and the [shape] of a frame are
    parameters; what [cv2.VideoCapture] delivers for a path is a [capture]
    record, and whether [cv2.VideoWriter] opens is a boolean. *)

From stdpp Require Import base gmap strings pretty.
From Stdlib Require Import ZArith QArith Qround Qreals Reals RNsatz Lra Lia Psatz.
From Stdlib Require Import List String.
Import ListNotations.

Local Open Scope string_scope.
Local Open Scope Z_scope.

(** ** Exceptions and the error monad *)

Inductive exn : Type :=
| ValueError (msg : string)
| RuntimeError (msg : string)
| IndexError
| TypeError.

Inductive result (A : Type) : Type :=
| Ok (a : A)
| Raise (e : exn).
Arguments Ok {A} a.
Arguments Raise {A} e.

Definition bind {A B : Type} (r : result A) (f : A -> result B) : result B :=
  match r with
  | Ok a => f a
  | Raise e => Raise e
  end.

Notation "'perform' x <- c1 ; c2" := (bind c1 (fun x => c2))
  (at level 10, x name, c1 at level 100, c2 at level 200).

(** [str(e)] as the video tool prints it.  The text of the [TypeError] that
    [cv2.VideoWriter_fourcc] raises belongs to the binding; a fixed text
    stands for it. *)
Definition exn_message (e : exn) : string :=
  match e with
  | ValueError msg => msg
  | RuntimeError msg => msg
  | IndexError => "list index out of range"
  | TypeError => "bad argument type"
  end.

(** ** Python lists *)

(** [l[i]]: a non-negative index counts from the front, a negative one from
    the back, anything else raises [IndexError]. *)
Definition py_index {A : Type} (l : list A) (i : Z) : result A :=
  let n := Z.of_nat (List.length l) in
  let j := if i <? 0 then n + i else i in
  if (0 <=? j) && (j <? n) then
    match nth_error l (Z.to_nat j) with
    | Some a => Ok a
    | None => Raise IndexError
    end
  else Raise IndexError.

(** [range(M)]: empty when [M <= 0]. *)
Definition range (M : Z) : list Z :=
  List.map Z.of_nat (seq 0 (Z.to_nat M)).

(** [for k in ks: out.append(body(k))], with the items appended so far kept
    when [body] raises (the video writer has then already received them). *)
Fixpoint append_loop {A : Type} (body : Z -> result A) (ks : list Z)
    (out : list A) : list A * result unit :=
  match ks with
  | [] => (out, Ok tt)
  | k :: ks' =>
      match body k with
      | Ok a => append_loop body ks' (out ++ [a])
      | Raise e => (out, Raise e)
      end
  end.

(** ** IndexMapper: lines [p = (k * N) / M; i = int(math.floor(p));
    alpha = p - i] of both loops *)

Record position : Type := Position { pos_p : Q; pos_i : Z; pos_alpha : Q }.

Definition index_position (N M k : Z) : position :=
  let p := Qred (inject_Z (k * N) / inject_Z M) in
  let i := Qfloor p in
  let alpha := Qred (p - inject_Z i) in
  Position p i alpha.

(** ** change_camera_framecount.py *)

Module Camera.

Local Open Scope R_scope.

(** A pose as the JSON holds it: four rows of four numbers. *)
Record row4 : Type := Row4 { c0 : R; c1 : R; c2 : R; c3 : R }.
Record mat4 : Type := Mat4 { row0 : row4; row1 : row4; row2 : row4; row3 : row4 }.

(** The numpy arrays: a 3x3 rotation, a translation, a quaternion (w,x,y,z). *)
Record mat3 : Type := Mat3 {
  m00 : R; m01 : R; m02 : R;
  m10 : R; m11 : R; m12 : R;
  m20 : R; m21 : R; m22 : R }.
Record vec3 : Type := Vec3 { v0 : R; v1 : R; v2 : R }.
Record quat : Type := Quat { qw : R; qx : R; qy : R; qz : R }.

Definition vscale (a : R) (v : vec3) : vec3 :=
  Vec3 (a * v0 v) (a * v1 v) (a * v2 v).
Definition vadd (u v : vec3) : vec3 :=
  Vec3 (v0 u + v0 v) (v1 u + v1 v) (v2 u + v2 v).

Definition qscale (a : R) (q : quat) : quat :=
  Quat (a * qw q) (a * qx q) (a * qy q) (a * qz q).
Definition qmul_scalar (q : quat) (a : R) : quat :=
  Quat (qw q * a) (qx q * a) (qy q * a) (qz q * a).
Definition qdiv_scalar (q : quat) (a : R) : quat :=
  Quat (qw q / a) (qx q / a) (qy q / a) (qz q / a).
Definition qadd (p q : quat) : quat :=
  Quat (qw p + qw q) (qx p + qx q) (qy p + qy q) (qz p + qz q).
Definition qsub (p q : quat) : quat :=
  Quat (qw p - qw q) (qx p - qx q) (qy p - qy q) (qz p - qz q).
Definition qneg (q : quat) : quat :=
  Quat (- qw q) (- qx q) (- qy q) (- qz q).
(** [np.dot] and [np.linalg.norm] *)
Definition qdot (p q : quat) : R :=
  qw p * qw q + qx p * qx q + qy p * qy q + qz p * qz q.
Definition qnorm (q : quat) : R :=
  sqrt (qw q * qw q + qx q * qx q + qy q * qy q + qz q * qz q).

Definition mat4_to_rt (mat : mat4) : mat3 * vec3 :=
  let r0 := row0 mat in
  let r1 := row1 mat in
  let r2 := row2 mat in
  (Mat3 (c0 r0) (c1 r0) (c2 r0)
        (c0 r1) (c1 r1) (c2 r1)
        (c0 r2) (c1 r2) (c2 r2),
   Vec3 (c3 r0) (c3 r1) (c3 r2)).

Definition rt_to_mat4 (Rm : mat3) (t : vec3) : mat4 :=
  Mat4 (Row4 (m00 Rm) (m01 Rm) (m02 Rm) (v0 t))
       (Row4 (m10 Rm) (m11 Rm) (m12 Rm) (v1 t))
       (Row4 (m20 Rm) (m21 Rm) (m22 Rm) (v2 t))
       (Row4 0 0 0 1).

(** The strict comparison [a > b] of two floats, as a boolean. *)
Definition Rgtb (a b : R) : bool := if Rlt_dec b a then true else false.

Definition rot_to_quat (m : mat3) : quat :=
  let trace := m00 m + m11 m + m22 m in
  let q :=
    if Rgtb trace 0 then
      let s := 0.5 / sqrt (trace + 1) in
      Quat (0.25 / s)
           ((m21 m - m12 m) * s)
           ((m02 m - m20 m) * s)
           ((m10 m - m01 m) * s)
    else if Rgtb (m00 m) (m11 m) && Rgtb (m00 m) (m22 m) then
      let s := 2 * sqrt (1 + m00 m - m11 m - m22 m) in
      Quat ((m21 m - m12 m) / s)
           (0.25 * s)
           ((m01 m + m10 m) / s)
           ((m02 m + m20 m) / s)
    else if Rgtb (m11 m) (m22 m) then
      let s := 2 * sqrt (1 + m11 m - m00 m - m22 m) in
      Quat ((m02 m - m20 m) / s)
           ((m01 m + m10 m) / s)
           (0.25 * s)
           ((m12 m + m21 m) / s)
    else
      let s := 2 * sqrt (1 + m22 m - m00 m - m11 m) in
      Quat ((m10 m - m01 m) / s)
           ((m02 m + m20 m) / s)
           ((m12 m + m21 m) / s)
           (0.25 * s) in
  qdiv_scalar q (qnorm q).

Definition quat_to_rot (q : quat) : mat3 :=
  let '(w, x, y, z) := (qw q, qx q, qy q, qz q) in
  let '(ww, xx, yy, zz) := (w * w, x * x, y * y, z * z) in
  let '(xy, xz, yz) := (x * y, x * z, y * z) in
  let '(wx, wy, wz) := (w * x, w * y, w * z) in
  Mat3 (ww + xx - yy - zz) (2 * (xy - wz)) (2 * (xz + wy))
       (2 * (xy + wz)) (ww - xx + yy - zz) (2 * (yz - wx))
       (2 * (xz - wy)) (2 * (yz + wx)) (ww - xx - yy + zz).

Definition DOT_THRESHOLD : R := 0.9995.

Definition quat_slerp (q0 q1 : quat) (t : R) : quat :=
  let q0 := qdiv_scalar q0 (qnorm q0) in
  let q1 := qdiv_scalar q1 (qnorm q1) in
  let dot := qdot q0 q1 in
  let '(q1, dot) := if Rgtb 0 dot then (qneg q1, - dot) else (q1, dot) in
  if Rgtb dot DOT_THRESHOLD then
    let result := qadd q0 (qscale t (qsub q1 q0)) in
    qdiv_scalar result (qnorm result)
  else
    let theta_0 := acos (Rmax (Rmin dot 1) (-1)) in
    let theta := theta_0 * t in
    let q2 := qsub q1 (qmul_scalar q0 dot) in
    let q2 := qdiv_scalar q2 (qnorm q2) in
    qadd (qmul_scalar q0 (cos theta)) (qmul_scalar q2 (sin theta)).

(** The [else] branch of the loop: the pose rebuilt from the pair at
    [(i, i+1)]. *)
Definition interpolate (q0 q1 : quat) (t0 t1 : vec3) (alpha : R) : mat4 :=
  let q := quat_slerp q0 q1 alpha in
  let t := vadd (vscale (1 - alpha) t0) (vscale alpha t1) in
  let Rm := quat_to_rot q in
  rt_to_mat4 Rm t.

(** The body of [for k in range(M)]: the item appended for [k]. *)
Definition resample_item (poses : list mat4) (ts : list vec3) (qs : list quat)
    (N M k : Z) : result mat4 :=
  let pos := index_position N M k in
  let i := pos_i pos in
  let alpha := Q2R (pos_alpha pos) in
  if (i <? 0)%Z then py_index poses 0
  else if (i >=? N - 1)%Z then py_index poses (-1)
  else
    perform q0 <- py_index qs i;
    perform q1 <- py_index qs (i + 1);
    perform t0 <- py_index ts i;
    perform t1 <- py_index ts (i + 1);
    Ok (interpolate q0 q1 t0 t1 alpha).

(** [resample_poses].  The array [Rs] is built by the source and never read
    afterwards; it is left out. *)
Definition resample_poses (poses : list mat4) (M : Z) : result (list mat4) :=
  let N := Z.of_nat (List.length poses) in
  if (N =? 0)%Z then Raise (ValueError "No poses to resample")
  else
    let ts := List.map (fun mat => snd (mat4_to_rt mat)) poses in
    let qs := List.map (fun mat => rot_to_quat (fst (mat4_to_rt mat))) poses in
    match append_loop (resample_item poses ts qs N M) (range M) [] with
    | (out, Ok _) => Ok out
    | (_, Raise e) => Raise e
    end.

(** The JSON document: a dictionary of top-level fields.  The [poses] field
    is a list of 4x4 matrices; the two count fields are integers; any other
    field is kept as its opaque text. *)
Inductive value : Type :=
| VPoses (poses : list mat4)
| VInt (n : Z)
| VOther (raw : string).

(** What one invocation of the pose tool leaves behind. *)
Record run : Type := Run {
  exit_status : Z;
  stderr : list string;
  stdout : list string;
  files : gmap string (gmap string value) }.

(** The last line of the traceback of an exception nobody catches. *)
Definition traceback (e : exn) : string :=
  match e with
  | ValueError msg => "ValueError: " ++ msg
  | RuntimeError msg => "RuntimeError: " ++ msg
  | IndexError => "IndexError: list index out of range"
  | TypeError => "TypeError"
  end%string.

(** [main], after argument parsing: [fs] maps a path to the document stored
    there.  An exception leaving [main] ends the process with status 1.
    A [poses] field that is not a list of matrices is outside the model
    ([None]). *)
Definition main (fs : gmap string (gmap string value))
    (input output : string) (frames : Z) : option run :=
  match fs !! input with
  | None => Some (Run 2 [("Input not found: " ++ input)%string] [] fs)
  | Some data =>
      match data !! "poses"%string with
      | None =>
          Some (Run 3 ["Input JSON does not contain 'poses' key"%string] [] fs)
      | Some v =>
          let M := frames in
          if (M <=? 0)%Z then
            Some (Run 4 ["Target frames must be > 0"%string] [] fs)
          else
            match v with
            | VPoses poses =>
                match resample_poses poses M with
                | Raise e => Some (Run 1 [traceback e] [] fs)
                | Ok out_poses =>
                    let data_out := data in
                    let data_out := <["poses"%string := VPoses out_poses]> data_out in
                    let data_out :=
                      <["original_num_poses"%string :=
                          VInt (Z.of_nat (List.length poses))]> data_out in
                    let data_out :=
                      <["target_num_poses"%string := VInt M]> data_out in
                    Some (Run 0 []
                            [("Wrote " ++ pretty (Z.of_nat (List.length out_poses))
                              ++ " poses to " ++ output)%string]
                            (<[output := data_out]> fs))
                end
            | _ => None
            end
      end
  end.

End Camera.

(** ** change_video_framecount.py *)

Module Video.

Local Open Scope Q_scope.

(** What [cv2.VideoCapture] yields for a path: whether it opened, the four
    metadata properties the tool reads, and the frames [cap.read()] returns
    until it fails. *)
Record capture (Frame : Type) : Type := Capture {
  cap_opened : bool;
  cap_fps : Q;
  cap_frame_count : Z;
  cap_width : Z;
  cap_height : Z;
  cap_frames : list Frame }.
Arguments Capture {Frame}.
Arguments cap_opened {Frame}.
Arguments cap_fps {Frame}.
Arguments cap_frame_count {Frame}.
Arguments cap_width {Frame}.
Arguments cap_height {Frame}.
Arguments cap_frames {Frame}.

(** What [cv2.VideoWriter] received: the frame rate and size it was opened
    with and the frames written to it, in order. *)
Record writer (Frame : Type) : Type := Writer {
  w_fps : Q;
  w_size : Z * Z;
  w_frames : list Frame }.
Arguments Writer {Frame}.
Arguments w_fps {Frame}.
Arguments w_size {Frame}.
Arguments w_frames {Frame}.

Record run (Frame : Type) : Type := Run {
  exit_status : Z;
  stderr : list string;
  stdout : list string;
  written : option (writer Frame) }.
Arguments Run {Frame}.
Arguments exit_status {Frame}.
Arguments stderr {Frame}.
Arguments stdout {Frame}.
Arguments written {Frame}.

Definition Qgtb (a b : Q) : bool := negb (Qle_bool a b).

Section Backend.

Context {Frame : Type}.
(** [cv2.addWeighted(a, wa, b, wb, 0)] and [frame.shape[:2]], height first. *)
Variable addWeighted : Frame -> Q -> Frame -> Q -> Frame.
Variable shape : Frame -> Z * Z.

(** The body of [for k in range(M)]: the frame written for [k]. *)
Definition resample_item (frames : list Frame) (N M k : Z) : result Frame :=
  let pos := index_position N M k in
  let i := pos_i pos in
  let alpha := pos_alpha pos in
  if (i <? 0)%Z then py_index frames 0
  else if (i >=? N - 1)%Z then py_index frames (-1)
  else
    perform a <- py_index frames i;
    perform b <- py_index frames (i + 1);
    Ok (addWeighted a (Qred (1 - alpha)) b alpha).

(** Lines 67-68. *)
Definition duration_of (N : Z) (fps_orig : Q) : Q :=
  if Qgtb fps_orig 0 then Qred (inject_Z N / fps_orig) else inject_Z N.

Definition fps_new_of (N M : Z) (fps_orig : Q) : Q :=
  let duration := duration_of N fps_orig in
  if Qgtb duration 0 then Qred (inject_Z M / duration) else fps_orig.

(** The block that reads every frame and settles the frame count and the
    frame rate: the container's count when it is positive, else the number of
    frames read (and then a rate of 30 when the container has none). *)
Definition read_frames (cap : capture Frame) : result (list Frame * Z * Q) :=
  let fps_orig := cap_fps cap in
  let frame_count := cap_frame_count cap in
  let frames := cap_frames cap in
  if (frame_count <=? 0)%Z then
    let frame_count := Z.of_nat (List.length frames) in
    if (frame_count =? 0)%Z then
      Raise (RuntimeError "Input video contains no frames.")
    else
      Ok (frames, frame_count, if Qle_bool fps_orig 0 then 30 else fps_orig)
  else Ok (frames, frame_count, fps_orig).

(** [resample_frames]: the writer as it stands when the function returns or
    raises ([None] when it was never opened), and how the function ended.
    [setup] is everything up to the opening of the writer. *)
Definition resample_frames (cap : capture Frame) (writer_opens : bool)
    (input_path output_path : string) (target_frames : Z) (codec : string)
    : option (writer Frame) * result unit :=
  let setup : result (list Frame * Z * Z * Q * (Z * Z)) :=
    if negb (cap_opened cap) then
      Raise (RuntimeError ("Cannot open input video: " ++ input_path))
    else
      let width := cap_width cap in
      let height := cap_height cap in
      perform read <- read_frames cap;
      let '(frames, frame_count, fps_orig) := read in
      perform size <-
        (if (width =? 0)%Z || (height =? 0)%Z then
           perform f0 <- py_index frames 0;
           let '(h, w) := shape f0 in Ok (w, h)
         else Ok (width, height));
      let N := frame_count in
      let M := target_frames in
      if (M <=? 0)%Z then Raise (ValueError "target_frames must be > 0")
      else
        let fps_new := fps_new_of N M fps_orig in
        if negb (String.length codec =? 4)%nat then Raise TypeError
        else if negb writer_opens then
          Raise (RuntimeError ("Cannot open output for writing: " ++ output_path))
        else Ok (frames, N, M, fps_new, size) in
  match setup with
  | Raise e => (None, Raise e)
  | Ok (frames, N, M, fps_new, size) =>
      let '(out, r) := append_loop (resample_item frames N M) (range M) [] in
      (Some (Writer fps_new size out), r)
  end.

(** [main], after argument parsing: [inputs] maps an existing path to what
    opening it as a video yields. *)
Definition main (inputs : gmap string (capture Frame)) (writer_opens : bool)
    (input output : string) (frames : Z) (codec : string) : run Frame :=
  match inputs !! input with
  | None => Run 2 [("Input file not found: " ++ input)%string] [] None
  | Some cap =>
      match resample_frames cap writer_opens input output frames codec with
      | (w, Raise e) => Run 1 [("Error: " ++ exn_message e)%string] [] w
      | (w, Ok _) =>
          Run 0 [] [("Wrote " ++ pretty frames ++ " frames to " ++ output)%string] w
      end
  end.

End Backend.

End Video.

(** * Vocabulary of the statements *)

Module CameraSpec.

Import Camera.
Local Open Scope R_scope.

(** A quaternion of squared length one. *)
Definition unit_quat (q : quat) : Prop := qdot q q = 1.

Definition zero_quat : quat := Quat 0 0 0 0.

Definition transpose (m : mat3) : mat3 :=
  Mat3 (m00 m) (m10 m) (m20 m)
       (m01 m) (m11 m) (m21 m)
       (m02 m) (m12 m) (m22 m).

Definition mmul (a b : mat3) : mat3 :=
  Mat3 (m00 a * m00 b + m01 a * m10 b + m02 a * m20 b)
       (m00 a * m01 b + m01 a * m11 b + m02 a * m21 b)
       (m00 a * m02 b + m01 a * m12 b + m02 a * m22 b)
       (m10 a * m00 b + m11 a * m10 b + m12 a * m20 b)
       (m10 a * m01 b + m11 a * m11 b + m12 a * m21 b)
       (m10 a * m02 b + m11 a * m12 b + m12 a * m22 b)
       (m20 a * m00 b + m21 a * m10 b + m22 a * m20 b)
       (m20 a * m01 b + m21 a * m11 b + m22 a * m21 b)
       (m20 a * m02 b + m21 a * m12 b + m22 a * m22 b).

Definition identity3 : mat3 := Mat3 1 0 0 0 1 0 0 0 1.

Definition det (m : mat3) : R :=
  m00 m * (m11 m * m22 m - m12 m * m21 m)
  - m01 m * (m10 m * m22 m - m12 m * m20 m)
  + m02 m * (m10 m * m21 m - m11 m * m20 m).

(** Orthonormal with determinant +1. *)
Definition is_rotation (m : mat3) : Prop :=
  mmul m (transpose m) = identity3 /\ det m = 1.

Definition msub (a b : mat3) : mat3 :=
  Mat3 (m00 a - m00 b) (m01 a - m01 b) (m02 a - m02 b)
       (m10 a - m10 b) (m11 a - m11 b) (m12 a - m12 b)
       (m20 a - m20 b) (m21 a - m21 b) (m22 a - m22 b).

(** The Frobenius norm, in which the relative error is measured. *)
Definition frobenius (m : mat3) : R :=
  sqrt (m00 m * m00 m + m01 m * m01 m + m02 m * m02 m
        + m10 m * m10 m + m11 m * m11 m + m12 m * m12 m
        + m20 m * m20 m + m21 m * m21 m + m22 m * m22 m).

(** What [quat_slerp] computes once both inputs are normalised and [q1] is
    brought into the hemisphere of [q0]. *)
Definition slerp_aligned (q0 q1 : quat) (dot t : R) : quat :=
  if Rgtb dot DOT_THRESHOLD then
    let result := qadd q0 (qscale t (qsub q1 q0)) in
    qdiv_scalar result (qnorm result)
  else
    let theta_0 := acos (Rmax (Rmin dot 1) (-1)) in
    let theta := theta_0 * t in
    let q2 := qsub q1 (qmul_scalar q0 dot) in
    let q2 := qdiv_scalar q2 (qnorm q2) in
    qadd (qmul_scalar q0 (cos theta)) (qmul_scalar q2 (sin theta)).

(** A pose of the data model: a rotation, a translation, and the fixed
    bottom row. *)
Definition valid_pose (p : mat4) : Prop :=
  is_rotation (fst (mat4_to_rt p)) /\ row3 p = Row4 0 0 0 1.

(** The interpolation of two neighbour poses with weight [alpha], written
    out: both rotations go to quaternions, the quaternions are slerped, the
    result goes back to a matrix; the translations are blended entry by
    entry as [(1 - alpha) * v0 + alpha * v1]; the bottom row is the fixed
    row. *)
Definition pose_pair (a b : mat4) (alpha : Q) : mat4 :=
  let w := Q2R alpha in
  let q := quat_slerp (rot_to_quat (fst (mat4_to_rt a)))
                      (rot_to_quat (fst (mat4_to_rt b))) w in
  let Rm := quat_to_rot q in
  let ta := snd (mat4_to_rt a) in
  let tb := snd (mat4_to_rt b) in
  Mat4 (Row4 (m00 Rm) (m01 Rm) (m02 Rm) ((1 - w) * v0 ta + w * v0 tb))
       (Row4 (m10 Rm) (m11 Rm) (m12 Rm) ((1 - w) * v1 ta + w * v1 tb))
       (Row4 (m20 Rm) (m21 Rm) (m22 Rm) ((1 - w) * v2 ta + w * v2 tb))
       (Row4 0 0 0 1).

End CameraSpec.

Module VideoSpec.

(** The frame the loop builds from the neighbours [a] and [b]. *)
Definition frame_pair {Frame : Type}
    (addWeighted : Frame -> Q -> Frame -> Q -> Frame)
    (a b : Frame) (alpha : Q) : Frame :=
  addWeighted a (Qred (1 - alpha)) b alpha.

End VideoSpec.

(** The two scenarios of the specification, as concrete inputs. *)
Module Scenario.

Import Camera.
Local Open Scope R_scope.

(** The identity at the origin, and a quarter turn about the vertical axis
    at translation (1,0,0). *)
Definition P0 : mat4 :=
  Mat4 (Row4 1 0 0 0) (Row4 0 1 0 0) (Row4 0 0 1 0) (Row4 0 0 0 1).
Definition P1 : mat4 :=
  Mat4 (Row4 0 0 1 1) (Row4 0 1 0 0) (Row4 (-1) 0 0 0) (Row4 0 0 0 1).
Definition poses : list mat4 := [P0; P1].

(** Ten one-pixel grey frames at 30 frames per second, blended with
    rounding to the nearest grey level. *)
Definition blend (a : Z) (wa : Q) (b : Z) (wb : Q) : Z :=
  Qfloor (inject_Z a * wa + inject_Z b * wb + (1 # 2))%Q.
Definition pixel_shape (f : Z) : Z * Z := (1%Z, 1%Z).
Definition clip : Video.capture Z :=
  Video.Capture true 30%Q 10%Z 1%Z 1%Z
    [0; 10; 20; 30; 40; 50; 60; 70; 80; 90]%Z.

End Scenario.

(** The error taxonomy of the specification. *)
Module ErrorSpec.

Inductive category : Type :=
| InputNotFound
| MissingField
| InvalidTargetCount
| EmptyInput
| DecoderOpenFailure
| EncoderOpenFailure.

(** The category an invocation of the pose tool falls in, if any: the
    first condition that fails, in the order in which the tool looks. *)
Definition pose_category (fs : gmap string (gmap string Camera.value))
    (input : string) (frames : Z) : option category :=
  match fs !! input with
  | None => Some InputNotFound
  | Some data =>
      match data !! "poses" with
      | None => Some MissingField
      | Some v =>
          if frames <=? 0 then Some InvalidTargetCount
          else
            match v with
            | Camera.VPoses [] => Some EmptyInput
            | _ => None
            end
      end
  end.

(** The same for the video tool.  [EmptyInput] is a capture that opens and
    delivers no frame, whatever count the container announces.  A codec
    name that is not four characters long is outside the taxonomy and gives
    [None]. *)
Definition video_category {Frame : Type}
    (inputs : gmap string (Video.capture Frame)) (writer_opens : bool)
    (input : string) (frames : Z) (codec : string) : option category :=
  match inputs !! input with
  | None => Some InputNotFound
  | Some cap =>
      if negb (Video.cap_opened cap) then Some DecoderOpenFailure
      else if (List.length (Video.cap_frames cap) =? 0)%nat then
        Some EmptyInput
      else if frames <=? 0 then Some InvalidTargetCount
      else if negb (String.length codec =? 4)%nat then None
      else if negb writer_opens then Some EncoderOpenFailure
      else None
  end.

(** Exit status and message per category, tool by tool. *)
Definition pose_status (c : category) : Z :=
  match c with
  | InputNotFound => 2
  | MissingField => 3
  | InvalidTargetCount => 4
  | _ => 1
  end.

Definition pose_report (c : category) (input : string) : string :=
  match c with
  | InputNotFound => "Input not found: " ++ input
  | MissingField => "Input JSON does not contain 'poses' key"
  | InvalidTargetCount => "Target frames must be > 0"
  | _ => "ValueError: No poses to resample"
  end.

Definition video_status (c : category) : Z :=
  match c with
  | InputNotFound => 2
  | _ => 1
  end.

Definition video_report (c : category) (input output : string) : string :=
  match c with
  | InputNotFound => "Input file not found: " ++ input
  | DecoderOpenFailure => "Error: Cannot open input video: " ++ input
  | EmptyInput => "Error: Input video contains no frames."
  | InvalidTargetCount => "Error: target_frames must be > 0"
  | _ => "Error: Cannot open output for writing: " ++ output
  end.

(** "A distinct exit status per category", for the video tool run on
    one-pixel frames. *)
Definition video_statuses_distinct : Prop :=
  forall (inputs1 inputs2 : gmap string (Video.capture Z))
         (opens1 opens2 : bool) (input1 input2 output1 output2 : string)
         (frames1 frames2 : Z) (codec1 codec2 : string) (c1 c2 : category),
    video_category inputs1 opens1 input1 frames1 codec1 = Some c1 ->
    video_category inputs2 opens2 input2 frames2 codec2 = Some c2 ->
    c1 <> c2 ->
    Video.exit_status
      (Video.main Scenario.blend Scenario.pixel_shape inputs1 opens1
                  input1 output1 frames1 codec1)
    <> Video.exit_status
         (Video.main Scenario.blend Scenario.pixel_shape inputs2 opens2
                     input2 output2 frames2 codec2).

End ErrorSpec.

(** * Properties *)

Local Open Scope list_scope.

(** ** Python lists and the output loop *)

Lemma py_index_front {A : Type} (l : list A) (i : Z) (a : A) :
  0 <= i ->
  nth_error l (Z.to_nat i) = Some a ->
  py_index l i = Ok a.
Proof.
  intros Hi Hnth.
  assert (Hlen : (Z.to_nat i < List.length l)%nat)
    by (apply nth_error_Some; rewrite Hnth; discriminate).
  unfold py_index.
  replace (i <? 0) with false by (symmetry; apply Z.ltb_ge; lia).
  replace (0 <=? i) with true by (symmetry; apply Z.leb_le; lia).
  replace (i <? Z.of_nat (List.length l)) with true
    by (symmetry; apply Z.ltb_lt; lia).
  simpl. now rewrite Hnth.
Qed.

Lemma py_index_back {A : Type} (l : list A) (a : A) :
  nth_error l (List.length l - 1) = Some a ->
  py_index l (-1) = Ok a.
Proof.
  intros Hnth.
  assert (Hlen : (List.length l - 1 < List.length l)%nat)
    by (apply nth_error_Some; rewrite Hnth; discriminate).
  unfold py_index.
  change (-1 <? 0) with true. cbv iota.
  replace (0 <=? Z.of_nat (List.length l) + -1) with true
    by (symmetry; apply Z.leb_le; lia).
  replace (Z.of_nat (List.length l) + -1 <? Z.of_nat (List.length l)) with true
    by (symmetry; apply Z.ltb_lt; lia).
  simpl.
  replace (Z.to_nat (Z.of_nat (List.length l) + -1)) with (List.length l - 1)%nat
    by lia.
  now rewrite Hnth.
Qed.

Lemma range_length (M : Z) : List.length (range M) = Z.to_nat M.
Proof. unfold range. now rewrite length_map, length_seq. Qed.

Lemma range_nth (M k : Z) :
  0 <= k < M -> nth_error (range M) (Z.to_nat k) = Some k.
Proof.
  intros Hk. unfold range.
  rewrite nth_error_map, nth_error_seq.
  replace (Z.to_nat k <? Z.to_nat M)%nat with true
    by (symmetry; apply Nat.ltb_lt; lia).
  simpl. f_equal. lia.
Qed.

Lemma range_In (M k : Z) : In k (range M) -> 0 <= k < M.
Proof.
  unfold range. rewrite in_map_iff. intros (n & <- & Hn).
  apply in_seq in Hn. lia.
Qed.

(** When the body succeeds on every index, the loop appends exactly one item
    per index, in order. *)
Lemma append_loop_ok {A : Type} (body : Z -> result A) (ks : list Z) :
  forall out : list A,
  (forall k, In k ks -> exists a, body k = Ok a) ->
  exists l,
    append_loop body ks out = (out ++ l, Ok tt) /\
    Forall2 (fun k a => body k = Ok a) ks l.
Proof.
  induction ks as [|k ks IH]; intros out Hall; simpl.
  - exists []. split; [now rewrite app_nil_r | constructor].
  - destruct (Hall k (or_introl eq_refl)) as [a Ha]. rewrite Ha.
    destruct (IH (out ++ [a])) as (l & Hl & HF).
    { intros k' Hk'. apply Hall. now right. }
    exists (a :: l). split.
    + rewrite Hl. now rewrite <- app_assoc.
    + now constructor.
Qed.

Lemma Forall2_nth_error_l {A B : Type} (P : A -> B -> Prop)
    (l1 : list A) (l2 : list B) (n : nat) (a : A) :
  Forall2 P l1 l2 -> nth_error l1 n = Some a ->
  exists b, nth_error l2 n = Some b /\ P a b.
Proof.
  intros HF. revert n.
  induction HF as [|x y l1 l2 Hxy HF IH]; intros [|n] Hn; simpl in *;
    try discriminate.
  - injection Hn as ->. now exists y.
  - now apply IH.
Qed.

(** ** IndexMapper *)

Lemma index_position_p (N M k : Z) :
  (pos_p (index_position N M k) == inject_Z (k * N) / inject_Z M)%Q.
Proof. unfold index_position; simpl. apply Qred_correct. Qed.

Lemma index_position_floor (N M k : Z) :
  pos_i (index_position N M k) = Qfloor (pos_p (index_position N M k)).
Proof. reflexivity. Qed.

Lemma index_position_i (N M k : Z) :
  pos_i (index_position N M k) = k * N / M.
Proof.
  unfold index_position; simpl.
  rewrite (Qfloor_comp _ _ (Qred_correct _)).
  symmetry. apply Zdiv_Qdiv.
Qed.

Lemma index_position_alpha (N M k : Z) :
  (pos_alpha (index_position N M k)
   == pos_p (index_position N M k) - inject_Z (pos_i (index_position N M k)))%Q.
Proof. unfold index_position; simpl. apply Qred_correct. Qed.

Lemma index_position_i_nonneg (N M k : Z) :
  0 <= N -> 0 < M -> 0 <= k -> 0 <= pos_i (index_position N M k).
Proof.
  intros HN HM Hk. rewrite index_position_i.
  apply Z.div_pos; [apply Z.mul_nonneg_nonneg|]; assumption.
Qed.

Lemma index_position_alpha_range (N M k : Z) :
  (0 <= pos_alpha (index_position N M k) < 1)%Q.
Proof.
  rewrite index_position_alpha, index_position_floor.
  set (p := pos_p (index_position N M k)).
  pose proof (Qfloor_le p) as Hlo.
  pose proof (Qlt_floor p) as Hhi.
  rewrite inject_Z_plus in Hhi. change (inject_Z 1) with 1%Q in Hhi.
  split.
  - apply (Qplus_le_l _ _ (inject_Z (Qfloor p))). ring_simplify. exact Hlo.
  - apply (Qplus_lt_l _ _ (inject_Z (Qfloor p))). ring_simplify.
    exact Hhi.
Qed.

(** At a position that is a whole number the weight is the number zero. *)
Lemma index_position_exact (N M k i : Z) :
  0 < M -> k * N = i * M ->
  pos_i (index_position N M k) = i /\
  pos_alpha (index_position N M k) = 0%Q.
Proof.
  intros HM Hmul.
  assert (Hi : pos_i (index_position N M k) = i).
  { rewrite index_position_i, Hmul. apply Z.div_mul. lia. }
  split; [exact Hi|].
  assert (Hp : (pos_p (index_position N M k) == inject_Z i)%Q).
  { rewrite index_position_p, Hmul, inject_Z_mult.
    field. intros H0. apply (inject_Z_injective M 0) in H0. lia. }
  unfold index_position in *; simpl in *.
  rewrite Hi.
  change 0%Q with (Qred 0). apply Qred_complete.
  rewrite Hp. ring.
Qed.

(** ** Quaternions and spherical interpolation *)

Module CameraFacts.

Import Camera CameraSpec.
Local Open Scope R_scope.

Lemma qnorm_sqrt (q : quat) : qnorm q = sqrt (qdot q q).
Proof. reflexivity. Qed.

Lemma qdot_self_nonneg (q : quat) : 0 <= qdot q q.
Proof. unfold qdot. nra. Qed.

Lemma qnorm_unit (q : quat) : unit_quat q -> qnorm q = 1.
Proof. intros H. rewrite qnorm_sqrt, H. apply sqrt_1. Qed.

Lemma qnorm_pos (q : quat) : 0 < qdot q q -> 0 < qnorm q.
Proof. intros H. rewrite qnorm_sqrt. now apply sqrt_lt_R0. Qed.

Lemma qnorm_sq (q : quat) : qnorm q * qnorm q = qdot q q.
Proof. rewrite qnorm_sqrt. apply sqrt_sqrt, qdot_self_nonneg. Qed.

Lemma qdot_div (p q : quat) (a b : R) :
  a <> 0 -> b <> 0 ->
  qdot (qdiv_scalar p a) (qdiv_scalar q b) = qdot p q / (a * b).
Proof. intros Ha Hb. unfold qdot, qdiv_scalar; simpl. field. now split. Qed.

Lemma normalize_unit (q : quat) :
  0 < qdot q q -> unit_quat (qdiv_scalar q (qnorm q)).
Proof.
  intros H. pose proof (qnorm_pos q H) as Hn.
  unfold unit_quat. rewrite qdot_div by lra.
  rewrite qnorm_sq. field. lra.
Qed.

Lemma quat_eta (q : quat) : Quat (qw q) (qx q) (qy q) (qz q) = q.
Proof. now destruct q. Qed.

Lemma normalize_of_unit (q : quat) :
  unit_quat q -> qdiv_scalar q (qnorm q) = q.
Proof.
  intros H. rewrite (qnorm_unit q H). destruct q; unfold qdiv_scalar; simpl.
  f_equal; field.
Qed.

Lemma Rgtb_true (a b : R) : Rgtb a b = true <-> b < a.
Proof. unfold Rgtb. destruct (Rlt_dec b a); split; intros; try easy. Qed.

Lemma Rgtb_false (a b : R) : Rgtb a b = false <-> a <= b.
Proof. unfold Rgtb. destruct (Rlt_dec b a); split; intros; try easy; lra. Qed.

Lemma qneg_unit (q : quat) : unit_quat q -> unit_quat (qneg q).
Proof. unfold unit_quat, qdot, qneg; simpl. intros H. rewrite <- H. ring. Qed.

Lemma qdot_neg_r (p q : quat) : qdot p (qneg q) = - qdot p q.
Proof. unfold qdot, qneg; simpl. ring. Qed.

Lemma slerp_cases (q0 q1 : quat) (t : R) (P : quat -> Prop) :
  let a := qdiv_scalar q0 (qnorm q0) in
  let b := qdiv_scalar q1 (qnorm q1) in
  (qdot a b < 0 -> P (slerp_aligned a (qneg b) (- qdot a b) t)) ->
  (0 <= qdot a b -> P (slerp_aligned a b (qdot a b) t)) ->
  P (quat_slerp q0 q1 t).
Proof.
  intros a b Hneg Hpos. unfold quat_slerp. fold a b.
  destruct (Rgtb 0 (qdot a b)) eqn:Hflip.
  - apply Rgtb_true in Hflip. apply Hneg, Hflip.
  - apply Rgtb_false in Hflip. apply Hpos, Hflip.
Qed.

Lemma lerp_dot (a b : quat) (t : R) :
  let r := qadd a (qscale t (qsub b a)) in
  qdot r r = (1 - t) * (1 - t) * qdot a a + t * t * qdot b b
             + 2 * t * (1 - t) * qdot a b.
Proof. unfold qdot, qadd, qscale, qsub; simpl. ring. Qed.

Lemma ortho_dot (a b : quat) :
  unit_quat a -> unit_quat b ->
  let c := qsub b (qmul_scalar a (qdot a b)) in
  qdot c c = 1 - qdot a b * qdot a b /\ qdot a c = 0.
Proof.
  intros Ha Hb c.
  assert (E1 : qdot c c = qdot b b - 2 * qdot a b * qdot a b + qdot a b * qdot a b * qdot a a).
  { unfold c, qdot, qsub, qmul_scalar; simpl. ring. }
  assert (E2 : qdot a c = qdot a b - qdot a a * qdot a b).
  { unfold c, qdot, qsub, qmul_scalar; simpl. ring. }
  rewrite E1, E2. unfold unit_quat in *. rewrite Ha, Hb. split; ring.
Qed.

Lemma combo_dot (a c : quat) (x y : R) :
  let r := qadd (qmul_scalar a x) (qmul_scalar c y) in
  qdot r r = x * x * qdot a a + 2 * x * y * qdot a c + y * y * qdot c c.
Proof. unfold qdot, qadd, qmul_scalar; simpl. ring. Qed.

Lemma aligned_unit (a b : quat) (t : R) :
  unit_quat a -> unit_quat b -> 0 <= qdot a b -> 0 <= t <= 1 ->
  unit_quat (slerp_aligned a b (qdot a b) t).
Proof.
  intros Ha Hb Hd Ht. unfold slerp_aligned.
  destruct (Rgtb (qdot a b) DOT_THRESHOLD) eqn:Hthr.
  - apply Rgtb_true in Hthr. unfold DOT_THRESHOLD in Hthr.
    apply normalize_unit. rewrite lerp_dot.
    unfold unit_quat in *. rewrite Ha, Hb.
    assert (0 <= t * (1 - t)) by nra.
    assert (0 <= t * (1 - t) * qdot a b) by (apply Rmult_le_pos; lra).
    nra.
  - apply Rgtb_false in Hthr. unfold DOT_THRESHOLD in Hthr.
    destruct (ortho_dot a b Ha Hb) as [Hcc Hac].
    set (c := qsub b (qmul_scalar a (qdot a b))) in *.
    assert (Hpos : 0 < qdot c c) by (rewrite Hcc; nra).
    pose proof (normalize_unit c Hpos) as Hq2.
    assert (Horth : qdot a (qdiv_scalar c (qnorm c)) = 0).
    { pose proof (qnorm_pos c Hpos).
      replace a with (qdiv_scalar a 1) at 1
        by (destruct a; unfold qdiv_scalar; simpl; f_equal; field).
      rewrite qdot_div by lra. rewrite Hac. field. lra. }
    cbv zeta. fold c.
    unfold unit_quat. rewrite combo_dot.
    unfold unit_quat in Ha, Hq2. rewrite Ha, Hq2, Horth.
    set (th := acos _ * t).
    pose proof (sin2_cos2 th) as Hsc. unfold Rsqr in Hsc. lra.
Qed.

Lemma aligned_zero (a b : quat) (d : R) :
  unit_quat a -> slerp_aligned a b d 0 = a.
Proof.
  intros Ha. unfold slerp_aligned.
  destruct (Rgtb d DOT_THRESHOLD).
  - cbv zeta.
    replace (qadd a (qscale 0 (qsub b a))) with a
      by (destruct a; unfold qadd, qscale, qsub; simpl; f_equal; ring).
    now apply normalize_of_unit.
  - cbv zeta. rewrite Rmult_0_r, cos_0, sin_0.
    destruct a; unfold qadd, qmul_scalar; simpl; f_equal; ring.
Qed.

Lemma aligned_one (a b : quat) :
  unit_quat a -> unit_quat b -> 0 <= qdot a b ->
  slerp_aligned a b (qdot a b) 1 = b.
Proof.
  intros Ha Hb Hd. unfold slerp_aligned.
  destruct (Rgtb (qdot a b) DOT_THRESHOLD) eqn:Hthr.
  - cbv zeta.
    replace (qadd a (qscale 1 (qsub b a))) with b
      by (destruct a, b; unfold qadd, qscale, qsub; simpl; f_equal; ring).
    now apply normalize_of_unit.
  - apply Rgtb_false in Hthr. unfold DOT_THRESHOLD in Hthr.
    destruct (ortho_dot a b Ha Hb) as [Hcc _].
    cbv zeta.
    set (c := qsub b (qmul_scalar a (qdot a b))) in *.
    set (d := qdot a b) in *.
    assert (Hpos : 0 < 1 - d * d) by nra.
    rewrite Rmult_1_r.
    replace (Rmax (Rmin d 1) (-1)) with d.
    2:{ rewrite Rmin_left by lra. rewrite Rmax_left by lra. reflexivity. }
    rewrite cos_acos, sin_acos by lra.
    rewrite qnorm_sqrt, Hcc. unfold Rsqr.
    assert (Hs : 0 < sqrt (1 - d * d)) by now apply sqrt_lt_R0.
    subst c. destruct a, b; unfold qadd, qmul_scalar, qdiv_scalar, qsub; simpl.
    f_equal; field; lra.
Qed.

Lemma aligned_same (q : quat) (t : R) :
  unit_quat q -> slerp_aligned q q (qdot q q) t = q.
Proof.
  intros Hq. unfold slerp_aligned. rewrite Hq.
  replace (Rgtb 1 DOT_THRESHOLD) with true
    by (symmetry; apply Rgtb_true; unfold DOT_THRESHOLD; lra).
  cbv zeta.
  replace (qadd q (qscale t (qsub q q))) with q
    by (destruct q; unfold qadd, qscale, qsub; simpl; f_equal; ring).
  now apply normalize_of_unit.
Qed.

Lemma slerp_same (q : quat) (t : R) : unit_quat q -> quat_slerp q q t = q.
Proof.
  intros Hq. apply slerp_cases; cbv zeta; rewrite !(normalize_of_unit q Hq).
  - intros H. rewrite Hq in H. lra.
  - intros _. now apply aligned_same.
Qed.

Lemma slerp_zero (q0 q1 : quat) : unit_quat q0 -> quat_slerp q0 q1 0 = q0.
Proof.
  intros H0. apply slerp_cases; cbv zeta;
    rewrite !(normalize_of_unit q0 H0); intros _; now apply aligned_zero.
Qed.

Lemma slerp_one (q0 q1 : quat) : unit_quat q0 -> unit_quat q1 ->
  quat_slerp q0 q1 1 = q1 \/ quat_slerp q0 q1 1 = qneg q1.
Proof.
  intros H0 H1. apply slerp_cases; cbv zeta;
    rewrite !(normalize_of_unit q0 H0), !(normalize_of_unit q1 H1); intros Hd.
  - right. rewrite <- qdot_neg_r. apply aligned_one; auto using qneg_unit.
    rewrite qdot_neg_r. lra.
  - left. now apply aligned_one.
Qed.

Lemma slerp_unit (q0 q1 : quat) (t : R) :
  0 < qdot q0 q0 -> 0 < qdot q1 q1 -> 0 <= t <= 1 ->
  qnorm (quat_slerp q0 q1 t) = 1.
Proof.
  intros H0 H1 Ht. apply qnorm_unit.
  pose proof (normalize_unit q0 H0) as Ha.
  pose proof (normalize_unit q1 H1) as Hb.
  apply slerp_cases; cbv zeta; intros Hd.
  - rewrite <- qdot_neg_r. apply aligned_unit; auto using qneg_unit.
    rewrite qdot_neg_r. lra.
  - now apply aligned_unit.
Qed.

(** ** Rotation matrices and quaternions *)

Ltac rot_entries m Hrot :=
  destruct m as [a b c d e f g h i];
  destruct Hrot as [Horth Hdet];
  unfold mmul, transpose, identity3, det in Horth, Hdet; simpl in Horth, Hdet;
  injection Horth as R00 R01 R02 R10 R11 R12 R20 R21 R22.

Ltac close_branch S HS HS0 :=
  let H5 := fresh "H5" in
  let H25 := fresh "H25" in
  assert (H5 : 0.5 = / 2) by lra; assert (H25 : 0.25 = / 4) by lra;
  split;
  [ unfold quat_to_rot; simpl; rewrite ?H5, ?H25; clear H5 H25;
    f_equal; (field_simplify_eq; [cbn [pow]; nsatz | lra])
  | unfold qdot; simpl; rewrite ?H5, ?H25; clear H5 H25;
    field_simplify_eq; [cbn [pow]; nsatz | lra] ].

Lemma branch_trace (m : mat3) :
  is_rotation m ->
  0 < m00 m + m11 m + m22 m ->
  let trace := m00 m + m11 m + m22 m in
  let s := 0.5 / sqrt (trace + 1) in
  let q := Quat (0.25 / s) ((m21 m - m12 m) * s) ((m02 m - m20 m) * s)
                ((m10 m - m01 m) * s) in
  quat_to_rot q = m /\ qdot q q = 1.
Proof.
  intros Hrot Htr. rot_entries m Hrot. simpl in *.
  set (S := sqrt (a + e + i + 1)).
  assert (HS : S * S = a + e + i + 1) by (apply sqrt_sqrt; lra).
  assert (HS0 : 0 < S) by (apply sqrt_lt_R0; lra).
  clearbody S. clear Htr. close_branch S HS HS0.
Qed.

Lemma branch_m00 (m : mat3) :
  is_rotation m ->
  0 < 1 + m00 m - m11 m - m22 m ->
  let s := 2 * sqrt (1 + m00 m - m11 m - m22 m) in
  let q := Quat ((m21 m - m12 m) / s) (0.25 * s) ((m01 m + m10 m) / s)
                ((m02 m + m20 m) / s) in
  quat_to_rot q = m /\ qdot q q = 1.
Proof.
  intros Hrot Htr. rot_entries m Hrot. simpl in *.
  set (S := sqrt (1 + a - e - i)).
  assert (HS : S * S = 1 + a - e - i) by (apply sqrt_sqrt; lra).
  assert (HS0 : 0 < S) by (apply sqrt_lt_R0; lra).
  clearbody S. close_branch S HS HS0.
Qed.

Lemma branch_m11 (m : mat3) :
  is_rotation m ->
  0 < 1 + m11 m - m00 m - m22 m ->
  let s := 2 * sqrt (1 + m11 m - m00 m - m22 m) in
  let q := Quat ((m02 m - m20 m) / s) ((m01 m + m10 m) / s) (0.25 * s)
                ((m12 m + m21 m) / s) in
  quat_to_rot q = m /\ qdot q q = 1.
Proof.
  intros Hrot Htr. rot_entries m Hrot. simpl in *.
  set (S := sqrt (1 + e - a - i)).
  assert (HS : S * S = 1 + e - a - i) by (apply sqrt_sqrt; lra).
  assert (HS0 : 0 < S) by (apply sqrt_lt_R0; lra).
  clearbody S. close_branch S HS HS0.
Qed.

Lemma branch_m22 (m : mat3) :
  is_rotation m ->
  0 < 1 + m22 m - m00 m - m11 m ->
  let s := 2 * sqrt (1 + m22 m - m00 m - m11 m) in
  let q := Quat ((m10 m - m01 m) / s) ((m02 m + m20 m) / s)
                ((m12 m + m21 m) / s) (0.25 * s) in
  quat_to_rot q = m /\ qdot q q = 1.
Proof.
  intros Hrot Htr. rot_entries m Hrot. simpl in *.
  set (S := sqrt (1 + i - a - e)).
  assert (HS : S * S = 1 + i - a - e) by (apply sqrt_sqrt; lra).
  assert (HS0 : 0 < S) by (apply sqrt_lt_R0; lra).
  clearbody S. close_branch S HS HS0.
Qed.


(** The four branches of [rot_to_quat].  In the three branches taken when
    the trace is not positive the argument of [math.sqrt] is at least 1, for
    any matrix, so the square root is always defined. *)
Lemma rot_to_quat_cases (m : mat3) (P : quat -> Prop) :
  let normalize q := qdiv_scalar q (qnorm q) in
  (0 < m00 m + m11 m + m22 m ->
   P (normalize
        (let s := 0.5 / sqrt (m00 m + m11 m + m22 m + 1) in
         Quat (0.25 / s) ((m21 m - m12 m) * s) ((m02 m - m20 m) * s)
              ((m10 m - m01 m) * s)))) ->
  (1 <= 1 + m00 m - m11 m - m22 m ->
   P (normalize
        (let s := 2 * sqrt (1 + m00 m - m11 m - m22 m) in
         Quat ((m21 m - m12 m) / s) (0.25 * s) ((m01 m + m10 m) / s)
              ((m02 m + m20 m) / s)))) ->
  (1 <= 1 + m11 m - m00 m - m22 m ->
   P (normalize
        (let s := 2 * sqrt (1 + m11 m - m00 m - m22 m) in
         Quat ((m02 m - m20 m) / s) ((m01 m + m10 m) / s) (0.25 * s)
              ((m12 m + m21 m) / s)))) ->
  (1 <= 1 + m22 m - m00 m - m11 m ->
   P (normalize
        (let s := 2 * sqrt (1 + m22 m - m00 m - m11 m) in
         Quat ((m10 m - m01 m) / s) ((m02 m + m20 m) / s)
              ((m12 m + m21 m) / s) (0.25 * s)))) ->
  P (rot_to_quat m).
Proof.
  intros normalize Htrace H00 H11 H22. unfold rot_to_quat.
  destruct (Rgtb (m00 m + m11 m + m22 m) 0) eqn:Et.
  - apply Htrace. now apply Rgtb_true in Et.
  - apply Rgtb_false in Et.
    destruct (Rgtb (m00 m) (m11 m)) eqn:E1;
      destruct (Rgtb (m00 m) (m22 m)) eqn:E2;
      destruct (Rgtb (m11 m) (m22 m)) eqn:E3; simpl;
      repeat match goal with
        | H : Rgtb _ _ = true |- _ => apply Rgtb_true in H
        | H : Rgtb _ _ = false |- _ => apply Rgtb_false in H
        end;
      first [ apply H00; lra | apply H11; lra | apply H22; lra ].
Qed.

Lemma rot_to_quat_roundtrip (m : mat3) :
  is_rotation m ->
  quat_to_rot (rot_to_quat m) = m /\ unit_quat (rot_to_quat m).
Proof.
  intros Hrot. apply rot_to_quat_cases; intros Hc.
  - destruct (branch_trace m Hrot Hc) as [Hq Hu]. cbv zeta in *.
    rewrite (normalize_of_unit _ Hu). now split.
  - destruct (branch_m00 m Hrot) as [Hq Hu]; [lra|]. cbv zeta in *.
    rewrite (normalize_of_unit _ Hu). now split.
  - destruct (branch_m11 m Hrot) as [Hq Hu]; [lra|]. cbv zeta in *.
    rewrite (normalize_of_unit _ Hu). now split.
  - destruct (branch_m22 m Hrot) as [Hq Hu]; [lra|]. cbv zeta in *.
    rewrite (normalize_of_unit _ Hu). now split.
Qed.

Lemma sum_squares_pos (w x y z : R) :
  0 < w \/ 0 < x \/ 0 < y \/ 0 < z -> 0 < w * w + x * x + y * y + z * z.
Proof. intros [H | [H | [H | H]]]; nra. Qed.

(** The quaternion extracted from any matrix has length one: the component
    built from the square root is positive, so the normalisation never
    divides by zero. *)
Lemma rot_to_quat_unit (m : mat3) : unit_quat (rot_to_quat m).
Proof.
  apply rot_to_quat_cases; intros Hc; cbv zeta; apply normalize_unit;
    unfold qdot; simpl; apply sum_squares_pos.
  - left.
    assert (HS : 0 < sqrt (m00 m + m11 m + m22 m + 1))
      by (apply sqrt_lt_R0; lra).
    apply Rdiv_lt_0_compat; [lra | apply Rdiv_lt_0_compat; lra].
  - right; left.
    assert (HS : 0 < sqrt (1 + m00 m - m11 m - m22 m))
      by (apply sqrt_lt_R0; lra).
    lra.
  - right; right; left.
    assert (HS : 0 < sqrt (1 + m11 m - m00 m - m22 m))
      by (apply sqrt_lt_R0; lra).
    lra.
  - right; right; right.
    assert (HS : 0 < sqrt (1 + m22 m - m00 m - m11 m))
      by (apply sqrt_lt_R0; lra).
    lra.
Qed.

Lemma quat_to_rot_neg (q : quat) : quat_to_rot (qneg q) = quat_to_rot q.
Proof. unfold quat_to_rot, qneg; simpl. f_equal; ring. Qed.

Lemma unit_of_qnorm (q : quat) : qnorm q = 1 -> unit_quat q.
Proof.
  intros H. unfold unit_quat. rewrite <- qnorm_sq, H. ring.
Qed.

Lemma nonzero_dot_pos (q : quat) : q <> zero_quat -> 0 < qdot q q.
Proof.
  intros Hq. destruct (Rlt_le_dec 0 (qdot q q)) as [Hpos|Hle]; [exact Hpos|].
  exfalso. apply Hq. destruct q as [w x y z].
  unfold qdot in Hle; simpl in Hle. unfold zero_quat.
  assert (w = 0) by nra. assert (x = 0) by nra.
  assert (y = 0) by nra. assert (z = 0) by nra.
  now subst.
Qed.

Lemma frobenius_msub_self (m : mat3) : frobenius (msub m m) = 0.
Proof.
  unfold frobenius, msub; simpl.
  match goal with |- sqrt ?e = 0 => replace e with 0 by ring end.
  apply sqrt_0.
Qed.

Lemma frobenius_nonneg (m : mat3) : 0 <= frobenius m.
Proof. unfold frobenius. apply sqrt_pos. Qed.

End CameraFacts.

(** ** The pose resampler *)

Module PoseFacts.

Import Camera CameraSpec.

Lemma pose_item_last (poses : list mat4) (ts : list vec3) (qs : list quat)
    (N M k : Z) (x : mat4) :
  0 <= pos_i (index_position N M k) ->
  N - 1 <= pos_i (index_position N M k) ->
  nth_error poses (List.length poses - 1) = Some x ->
  resample_item poses ts qs N M k = Ok x.
Proof.
  intros H0 Hi Hx. unfold resample_item.
  replace (pos_i (index_position N M k) <? 0) with false
    by (symmetry; apply Z.ltb_ge; lia).
  replace (pos_i (index_position N M k) >=? N - 1) with true
    by (symmetry; rewrite Z.geb_leb; apply Z.leb_le; lia).
  now apply py_index_back.
Qed.

(** The pose the [else] branch of the loop assembles is that
    interpolation. *)
Lemma interpolate_pose_pair (a b : mat4) (alpha : Q) :
  interpolate (rot_to_quat (fst (mat4_to_rt a)))
              (rot_to_quat (fst (mat4_to_rt b)))
              (snd (mat4_to_rt a)) (snd (mat4_to_rt b)) (Q2R alpha)
  = pose_pair a b alpha.
Proof. reflexivity. Qed.

Lemma pose_item_pair (poses : list mat4) (N M k : Z) (a b : mat4) :
  let ts := List.map (fun mat => snd (mat4_to_rt mat)) poses in
  let qs := List.map (fun mat => rot_to_quat (fst (mat4_to_rt mat))) poses in
  let i := pos_i (index_position N M k) in
  0 <= i < N - 1 ->
  nth_error poses (Z.to_nat i) = Some a ->
  nth_error poses (Z.to_nat (i + 1)) = Some b ->
  resample_item poses ts qs N M k
  = Ok (pose_pair a b (pos_alpha (index_position N M k))).
Proof.
  intros ts qs i Hi Ha Hb. unfold resample_item. fold i.
  replace (i <? 0) with false by (symmetry; apply Z.ltb_ge; lia).
  replace (i >=? N - 1) with false
    by (symmetry; rewrite Z.geb_leb; apply Z.leb_gt; lia).
  rewrite (py_index_front qs i (rot_to_quat (fst (mat4_to_rt a))));
    [| lia | unfold qs; now rewrite nth_error_map, Ha].
  rewrite (py_index_front qs (i + 1) (rot_to_quat (fst (mat4_to_rt b))));
    [| lia | unfold qs; now rewrite nth_error_map, Hb].
  rewrite (py_index_front ts i (snd (mat4_to_rt a)));
    [| lia | unfold ts; now rewrite nth_error_map, Ha].
  rewrite (py_index_front ts (i + 1) (snd (mat4_to_rt b)));
    [| lia | unfold ts; now rewrite nth_error_map, Hb].
  reflexivity.
Qed.

Lemma nth_error_in_range {A : Type} (l : list A) (n : nat) :
  (n < List.length l)%nat -> exists a, nth_error l n = Some a.
Proof.
  intros Hn. destruct (nth_error l n) as [a|] eqn:E; [now exists a|].
  apply nth_error_None in E. lia.
Qed.

(** A non-empty pose list is resampled without an exception, and every
    output item is what the loop body yields for its index. *)
Lemma resample_poses_items (poses : list mat4) (M : Z) :
  poses <> [] ->
  let N := Z.of_nat (List.length poses) in
  let ts := List.map (fun mat => snd (mat4_to_rt mat)) poses in
  let qs := List.map (fun mat => rot_to_quat (fst (mat4_to_rt mat))) poses in
  exists out,
    resample_poses poses M = Ok out /\
    Forall2 (fun k x => resample_item poses ts qs N M k = Ok x) (range M) out.
Proof.
  intros Hne N ts qs.
  assert (HN : 1 <= N) by (destruct poses; [easy | unfold N; simpl; lia]).
  unfold resample_poses. fold N ts qs.
  replace (N =? 0) with false by (symmetry; apply Z.eqb_neq; lia).
  assert (HNlen : N = Z.of_nat (List.length poses)) by reflexivity.
  clearbody N.
  destruct (append_loop_ok (resample_item poses ts qs N M) (range M) [])
    as (out & Hloop & HF).
  { intros k Hk. apply range_In in Hk.
    assert (H0 : 0 <= pos_i (index_position N M k))
      by (apply index_position_i_nonneg; lia).
    destruct (Z_lt_le_dec (pos_i (index_position N M k)) (N - 1)) as [Hlt|Hge].
    - destruct (nth_error_in_range poses
                  (Z.to_nat (pos_i (index_position N M k)))) as [a Ha];
        [lia|].
      destruct (nth_error_in_range poses
                  (Z.to_nat (pos_i (index_position N M k) + 1))) as [b Hb];
        [lia|].
      eexists. apply pose_item_pair; eauto.
    - destruct (nth_error_in_range poses (List.length poses - 1)) as [x Hx];
        [lia|].
      exists x. now apply pose_item_last. }
  exists out. rewrite Hloop. split; [reflexivity | exact HF].
Qed.

Lemma resample_poses_nth (poses : list mat4) (M k : Z) :
  poses <> [] -> 0 <= k < M ->
  let N := Z.of_nat (List.length poses) in
  let ts := List.map (fun mat => snd (mat4_to_rt mat)) poses in
  let qs := List.map (fun mat => rot_to_quat (fst (mat4_to_rt mat))) poses in
  exists out x,
    resample_poses poses M = Ok out /\
    List.length out = Z.to_nat M /\
    nth_error out (Z.to_nat k) = Some x /\
    resample_item poses ts qs N M k = Ok x.
Proof.
  intros Hne Hk N ts qs.
  destruct (resample_poses_items poses M Hne) as (out & Hout & HF).
  fold N ts qs in HF.
  destruct (Forall2_nth_error_l _ _ _ _ _ HF (range_nth M k Hk))
    as (x & Hx & Hitem).
  exists out, x. repeat split; try assumption.
  rewrite <- (Forall2_length HF). apply range_length.
Qed.

End PoseFacts.

(** ** The frame resampler *)

Module VideoFacts.

Import Video VideoSpec.

Section Backend.

Context {Frame : Type}.
Variable addWeighted : Frame -> Q -> Frame -> Q -> Frame.
Variable shape : Frame -> Z * Z.

Lemma frame_item_last (frames : list Frame) (N M k : Z) (x : Frame) :
  0 <= pos_i (index_position N M k) ->
  N - 1 <= pos_i (index_position N M k) ->
  nth_error frames (List.length frames - 1) = Some x ->
  resample_item addWeighted frames N M k = Ok x.
Proof.
  intros H0 Hi Hx. unfold resample_item.
  replace (pos_i (index_position N M k) <? 0) with false
    by (symmetry; apply Z.ltb_ge; lia).
  replace (pos_i (index_position N M k) >=? N - 1) with true
    by (symmetry; rewrite Z.geb_leb; apply Z.leb_le; lia).
  now apply py_index_back.
Qed.

Lemma frame_item_pair (frames : list Frame) (N M k : Z) (a b : Frame) :
  let i := pos_i (index_position N M k) in
  0 <= i < N - 1 ->
  nth_error frames (Z.to_nat i) = Some a ->
  nth_error frames (Z.to_nat (i + 1)) = Some b ->
  resample_item addWeighted frames N M k
  = Ok (frame_pair addWeighted a b (pos_alpha (index_position N M k))).
Proof.
  intros i Hi Ha Hb. unfold resample_item. fold i.
  replace (i <? 0) with false by (symmetry; apply Z.ltb_ge; lia).
  replace (i >=? N - 1) with false
    by (symmetry; rewrite Z.geb_leb; apply Z.leb_gt; lia).
  rewrite (py_index_front frames i a) by (assumption || lia).
  rewrite (py_index_front frames (i + 1) b) by (assumption || lia).
  reflexivity.
Qed.

Lemma loop_items (frames : list Frame) (N M : Z) :
  frames <> [] -> 0 <= N <= Z.of_nat (List.length frames) ->
  exists out,
    append_loop (resample_item addWeighted frames N M) (range M) []
    = (out, Ok tt) /\
    Forall2 (fun k x => resample_item addWeighted frames N M k = Ok x)
            (range M) out.
Proof.
  intros Hne HN.
  destruct (append_loop_ok (resample_item addWeighted frames N M) (range M) [])
    as (out & Hloop & HF).
  { intros k Hk. apply range_In in Hk.
    assert (H0 : 0 <= pos_i (index_position N M k))
      by (apply index_position_i_nonneg; lia).
    destruct (Z_lt_le_dec (pos_i (index_position N M k)) (N - 1)) as [Hlt|Hge].
    - destruct (PoseFacts.nth_error_in_range frames
                  (Z.to_nat (pos_i (index_position N M k)))) as [a Ha];
        [lia|].
      destruct (PoseFacts.nth_error_in_range frames
                  (Z.to_nat (pos_i (index_position N M k) + 1))) as [b Hb];
        [lia|].
      eexists. apply frame_item_pair; eauto.
    - destruct (PoseFacts.nth_error_in_range frames (List.length frames - 1))
        as [x Hx].
      { destruct frames; [easy | simpl; lia]. }
      exists x. now apply frame_item_last. }
  exists out. now split.
Qed.

Lemma read_frames_inv (cap : capture Frame) (frames : list Frame)
    (N : Z) (fps : Q) :
  read_frames cap = Ok (frames, N, fps) ->
  frames = cap_frames cap /\ 0 < N /\
  ((cap_frame_count cap <= 0 /\ N = Z.of_nat (List.length frames) /\
    fps = (if Qle_bool (cap_fps cap) 0 then 30%Q else cap_fps cap)) \/
   (0 < cap_frame_count cap /\ N = cap_frame_count cap /\ fps = cap_fps cap)).
Proof.
  unfold read_frames.
  destruct (cap_frame_count cap <=? 0) eqn:Ec.
  - apply Z.leb_le in Ec.
    destruct (Z.of_nat (List.length (cap_frames cap)) =? 0) eqn:E0;
      [discriminate|].
    apply Z.eqb_neq in E0. intros [= <- <- <-].
    split; [reflexivity|]. split; [lia|]. left. repeat split. exact Ec.
  - apply Z.leb_gt in Ec. intros [= <- <- <-].
    split; [reflexivity|]. split; [lia|]. right. now repeat split.
Qed.

Lemma read_frames_inv_pos (cap : capture Frame) (frames : list Frame)
    (N : Z) (fps : Q) :
  read_frames cap = Ok (frames, N, fps) -> 0 < N.
Proof. intros H. now destruct (read_frames_inv _ _ _ _ H) as (_ & HN & _). Qed.

(** Once the capture and the writer open, the codec has four characters and
    the count used as [N] does not exceed the frames decoded, the function
    returns normally, having written what the loop body yields per index at
    the derived frame rate. *)
Lemma resample_frames_ok (cap : capture Frame) (writer_opens : bool)
    (input_path output_path : string) (M : Z) (codec : string)
    (frames : list Frame) (N : Z) (fps : Q) :
  cap_opened cap = true ->
  read_frames cap = Ok (frames, N, fps) ->
  frames <> [] -> N <= Z.of_nat (List.length frames) ->
  0 < M -> String.length codec = 4%nat -> writer_opens = true ->
  exists size out,
    resample_frames addWeighted shape cap writer_opens input_path output_path
                    M codec
    = (Some (Writer (fps_new_of N M fps) size out), Ok tt) /\
    Forall2 (fun k x => resample_item addWeighted frames N M k = Ok x)
            (range M) out.
Proof.
  intros Hopen Hread Hne HN HM Hcodec Hw.
  destruct (read_frames_inv _ _ _ _ Hread) as (_ & HNpos & _).
  destruct (loop_items frames N M Hne) as (out & Hloop & HF); [lia|].
  unfold resample_frames. rewrite Hopen, Hread, Hcodec, Hw. simpl.
  replace (M <=? 0) with false by (symmetry; apply Z.leb_gt; lia).
  destruct ((cap_width cap =? 0) || (cap_height cap =? 0)).
  - destruct frames as [|f0 rest]; [easy|].
    unfold py_index at 1. simpl.
    destruct (shape f0) as [h w]. simpl.
    replace (M <=? 0) with false by (symmetry; apply Z.leb_gt; lia).
    rewrite Hloop. now exists (w, h), out.
  - simpl. rewrite Hloop. now exists (cap_width cap, cap_height cap), out.
Qed.

End Backend.

End VideoFacts.

(** ** What each resampler puts at a target index *)

Lemma resample_poses_at (poses : list Camera.mat4) (M k : Z) :
  poses <> [] -> 0 <= k < M ->
  let N := Z.of_nat (List.length poses) in
  let i := pos_i (index_position N M k) in
  let alpha := pos_alpha (index_position N M k) in
  exists out x,
    Camera.resample_poses poses M = Ok out /\
    List.length out = Z.to_nat M /\
    nth_error out (Z.to_nat k) = Some x /\
    0 <= i /\
    (N - 1 <= i -> nth_error poses (Z.to_nat (N - 1)) = Some x) /\
    (i < N - 1 ->
     exists a b,
       nth_error poses (Z.to_nat i) = Some a /\
       nth_error poses (Z.to_nat (i + 1)) = Some b /\
       x = CameraSpec.pose_pair a b alpha).
Proof.
  intros Hne Hk N i alpha.
  destruct (PoseFacts.resample_poses_nth poses M k Hne Hk)
    as (out & x & Hout & Hlen & Hnth & Hitem).
  fold N in Hitem.
  assert (HN : 1 <= N) by (destruct poses; [easy | unfold N; simpl; lia]).
  assert (H0 : 0 <= i) by (apply index_position_i_nonneg; lia).
  assert (HNlen : N = Z.of_nat (List.length poses)) by reflexivity.
  clearbody N.
  exists out, x. repeat (split; [assumption|]). split.
  - intros Hge.
    destruct (PoseFacts.nth_error_in_range poses (List.length poses - 1))
      as [y Hy]; [lia|].
    rewrite (PoseFacts.pose_item_last _ _ _ N M k y H0 Hge Hy) in Hitem.
    injection Hitem as <-.
    replace (Z.to_nat (N - 1)) with (List.length poses - 1)%nat by lia.
    exact Hy.
  - intros Hlt.
    destruct (PoseFacts.nth_error_in_range poses (Z.to_nat i)) as [a Ha];
      [lia|].
    destruct (PoseFacts.nth_error_in_range poses (Z.to_nat (i + 1)))
      as [b Hb]; [lia|].
    rewrite (PoseFacts.pose_item_pair poses N M k a b) in Hitem
      by (assumption || (fold i; lia)).
    injection Hitem as <-.
    now exists a, b.
Qed.

Lemma resample_frames_at {Frame : Type}
    (addWeighted : Frame -> Q -> Frame -> Q -> Frame)
    (shape : Frame -> Z * Z) (cap : Video.capture Frame)
    (input_path output_path : string) (M k : Z) (codec : string)
    (frames : list Frame) (N : Z) (fps : Q) :
  Video.cap_opened cap = true ->
  Video.read_frames cap = Ok (frames, N, fps) ->
  frames <> [] -> N = Z.of_nat (List.length frames) ->
  String.length codec = 4%nat ->
  0 <= k < M ->
  let i := pos_i (index_position N M k) in
  let alpha := pos_alpha (index_position N M k) in
  exists w x,
    Video.resample_frames addWeighted shape cap true input_path output_path
                          M codec = (Some w, Ok tt) /\
    Video.w_fps w = Video.fps_new_of N M fps /\
    List.length (Video.w_frames w) = Z.to_nat M /\
    nth_error (Video.w_frames w) (Z.to_nat k) = Some x /\
    0 <= i /\
    (N - 1 <= i -> nth_error frames (Z.to_nat (N - 1)) = Some x) /\
    (i < N - 1 ->
     exists a b,
       nth_error frames (Z.to_nat i) = Some a /\
       nth_error frames (Z.to_nat (i + 1)) = Some b /\
       x = VideoSpec.frame_pair addWeighted a b alpha).
Proof.
  intros Hopen Hread Hne HN Hcodec Hk i alpha.
  destruct (VideoFacts.resample_frames_ok addWeighted shape cap true
              input_path output_path M codec frames N fps)
    as (size & out & Hres & HF); try assumption; try lia; try reflexivity.
  destruct (Forall2_nth_error_l _ _ _ _ _ HF (range_nth M k Hk))
    as (x & Hnth & Hitem).
  assert (HN1 : 1 <= N) by (destruct frames; [easy | subst N; simpl; lia]).
  assert (H0 : 0 <= i) by (apply index_position_i_nonneg; lia).
  exists (Video.Writer (Video.fps_new_of N M fps) size out), x.
  split; [exact Hres|]. split; [reflexivity|]. simpl.
  split; [rewrite <- (Forall2_length HF); apply range_length|].
  split; [exact Hnth|]. split; [exact H0|]. split.
  - intros Hge.
    destruct (PoseFacts.nth_error_in_range frames (List.length frames - 1))
      as [y Hy]; [lia|].
    rewrite (VideoFacts.frame_item_last addWeighted frames N M k y H0 Hge Hy)
      in Hitem.
    injection Hitem as <-.
    replace (Z.to_nat (N - 1)) with (List.length frames - 1)%nat by lia.
    exact Hy.
  - intros Hlt.
    destruct (PoseFacts.nth_error_in_range frames (Z.to_nat i)) as [a Ha];
      [lia|].
    destruct (PoseFacts.nth_error_in_range frames (Z.to_nat (i + 1)))
      as [b Hb]; [lia|].
    rewrite (VideoFacts.frame_item_pair addWeighted frames N M k a b) in Hitem
      by (assumption || (fold i; lia)).
    injection Hitem as <-.
    now exists a, b.
Qed.

(** The same when the count in use is at most the number of frames read:
    the boundary branch then writes the last frame read. *)
Lemma resample_frames_within {Frame : Type}
    (addWeighted : Frame -> Q -> Frame -> Q -> Frame)
    (shape : Frame -> Z * Z) (cap : Video.capture Frame)
    (input_path output_path : string) (M k : Z) (codec : string)
    (frames : list Frame) (N : Z) (fps : Q) :
  Video.cap_opened cap = true ->
  Video.read_frames cap = Ok (frames, N, fps) ->
  N <= Z.of_nat (List.length frames) ->
  String.length codec = 4%nat ->
  0 <= k < M ->
  let i := pos_i (index_position N M k) in
  let alpha := pos_alpha (index_position N M k) in
  exists w x,
    Video.resample_frames addWeighted shape cap true input_path output_path
                          M codec = (Some w, Ok tt) /\
    List.length (Video.w_frames w) = Z.to_nat M /\
    nth_error (Video.w_frames w) (Z.to_nat k) = Some x /\
    0 <= i /\
    (N - 1 <= i ->
     nth_error frames (List.length frames - 1) = Some x) /\
    (i < N - 1 ->
     exists a b,
       nth_error frames (Z.to_nat i) = Some a /\
       nth_error frames (Z.to_nat (i + 1)) = Some b /\
       x = VideoSpec.frame_pair addWeighted a b alpha).
Proof.
  intros Hopen Hread HN Hcodec Hk i alpha.
  pose proof (VideoFacts.read_frames_inv_pos cap frames N fps Hread) as HN1.
  assert (Hne : frames <> []) by (destruct frames; [simpl in HN; lia | easy]).
  destruct (VideoFacts.resample_frames_ok addWeighted shape cap true
              input_path output_path M codec frames N fps)
    as (size & out & Hres & HF); try assumption; try lia; try reflexivity.
  destruct (Forall2_nth_error_l _ _ _ _ _ HF (range_nth M k Hk))
    as (x & Hnth & Hitem).
  assert (H0 : 0 <= i) by (apply index_position_i_nonneg; lia).
  exists (Video.Writer (Video.fps_new_of N M fps) size out), x.
  split; [exact Hres|]. simpl.
  split; [rewrite <- (Forall2_length HF); apply range_length|].
  split; [exact Hnth|]. split; [exact H0|]. split.
  - intros Hge.
    destruct (PoseFacts.nth_error_in_range frames (List.length frames - 1))
      as [y Hy]; [lia|].
    rewrite (VideoFacts.frame_item_last addWeighted frames N M k y H0 Hge Hy)
      in Hitem.
    injection Hitem as <-. exact Hy.
  - intros Hlt.
    destruct (PoseFacts.nth_error_in_range frames (Z.to_nat i)) as [a Ha];
      [lia|].
    destruct (PoseFacts.nth_error_in_range frames (Z.to_nat (i + 1)))
      as [b Hb]; [lia|].
    rewrite (VideoFacts.frame_item_pair addWeighted frames N M k a b) in Hitem
      by (assumption || (fold i; lia)).
    injection Hitem as <-.
    now exists a, b.
Qed.

(** * The claims *)

(** ** Claims about rotations *)

Section RotationClaims.

Import Camera CameraSpec CameraFacts.
Local Open Scope R_scope.

(** C5.  For unit quaternions [q], [q0], [q1] and [t] in [[0,1]]:
    interpolating [q] with itself gives [q]; at [t = 0] the result is [q0];
    at [t = 1] it is [q1] up to sign, that is [q1] or [-q1]. *)
Theorem slerp_fixed_points (q q0 q1 : quat) (t : R) :
  qnorm q = 1 -> qnorm q0 = 1 -> qnorm q1 = 1 -> 0 <= t <= 1 ->
  quat_slerp q q t = q /\
  quat_slerp q0 q1 0 = q0 /\
  (quat_slerp q0 q1 1 = q1 \/ quat_slerp q0 q1 1 = qneg q1).
Proof.
  intros Hq H0 H1 _.
  apply unit_of_qnorm in Hq, H0, H1.
  split; [now apply slerp_same|].
  split; [now apply slerp_zero|].
  now apply slerp_one.
Qed.

Lemma qnorm_axis (a b c d : R) :
  a * a + b * b + c * c + d * d = 1 -> qnorm (Quat a b c d) = 1.
Proof. intros H. unfold qnorm; simpl. rewrite H. apply sqrt_1. Qed.

(** A half-way interpolation between the identity and a half turn about
    the first axis. *)
Lemma slerp_fixed_points_witness :
  quat_slerp (Quat 0 0 1 0) (Quat 0 0 1 0) (1 / 2) = Quat 0 0 1 0 /\
  quat_slerp (Quat 1 0 0 0) (Quat 0 1 0 0) 0 = Quat 1 0 0 0 /\
  (quat_slerp (Quat 1 0 0 0) (Quat 0 1 0 0) 1 = Quat 0 1 0 0 \/
   quat_slerp (Quat 1 0 0 0) (Quat 0 1 0 0) 1 = qneg (Quat 0 1 0 0)).
Proof.
  apply (slerp_fixed_points (Quat 0 0 1 0) (Quat 1 0 0 0) (Quat 0 1 0 0) (1 / 2)).
  - apply qnorm_axis; lra.
  - apply qnorm_axis; lra.
  - apply qnorm_axis; lra.
  - lra.
Defined.

(** C7.  For nonzero inputs and [t] in [[0,1]] the quaternion that
    [quat_slerp] returns has norm one, whichever branch produced it. *)
Theorem slerp_unit_norm (q0 q1 : quat) (t : R) :
  q0 <> zero_quat -> q1 <> zero_quat -> 0 <= t <= 1 ->
  qnorm (quat_slerp q0 q1 t) = 1.
Proof.
  intros H0 H1 Ht.
  apply slerp_unit; auto using nonzero_dot_pos.
Qed.

Lemma slerp_unit_norm_witness :
  qnorm (quat_slerp (Quat 2 0 0 0) (Quat 0 3 0 0) (1 / 2)) = 1.
Proof.
  apply (slerp_unit_norm (Quat 2 0 0 0) (Quat 0 3 0 0) (1 / 2)).
  - intros H. apply (f_equal qw) in H. simpl in H. lra.
  - intros H. apply (f_equal qx) in H. simpl in H. lra.
  - lra.
Defined.

(** C6.  For an orthonormal matrix of determinant +1, going to the
    quaternion and back gives the matrix again, also when the sign of the
    quaternion is flipped in between; the relative error, measured in the
    Frobenius norm, is therefore within 1e-6. *)
Theorem rotation_roundtrip (m : mat3) :
  is_rotation m ->
  let m' := quat_to_rot (rot_to_quat m) in
  m' = m /\
  quat_to_rot (qneg (rot_to_quat m)) = m /\
  frobenius (msub m' m) <= 1e-6 * frobenius m.
Proof.
  intros Hrot m'.
  destruct (rot_to_quat_roundtrip m Hrot) as [Hback _].
  split; [exact Hback|].
  split; [now rewrite quat_to_rot_neg|].
  unfold m'. rewrite Hback, frobenius_msub_self.
  pose proof (frobenius_nonneg m). nra.
Qed.

(** The quarter turn about the vertical axis. *)
Lemma rotation_roundtrip_witness :
  quat_to_rot (rot_to_quat (Mat3 0 (-1) 0 1 0 0 0 0 1)) = Mat3 0 (-1) 0 1 0 0 0 0 1.
Proof.
  apply (rotation_roundtrip (Mat3 0 (-1) 0 1 0 0 0 0 1)).
  split.
  - unfold mmul, transpose, identity3; simpl. f_equal; ring.
  - unfold det; simpl. ring.
Defined.

End RotationClaims.

(** ** Claims about the index mapping and the two loops *)

(** C1, as the code has it.  For a count [N >= 1], a target count [M >= 1]
    and a target index [k] in [[0,M)], both loops compute the position
    [p = k*N/M], the neighbour [i = floor p] and the weight [alpha = p - i].
    When [i >= N-1] the output at [k] is the last source item, whatever
    [alpha]; when [0 <= i < N-1] it is the interpolation of the items at [i]
    and [i+1] with weight [alpha].  For poses [N] is the number of poses.
    For frames [N] is the count the code uses, the announced count when it
    is positive and else the number of frames read; the statement is for a
    capture and a writer that open, a codec of four characters, and a count
    that does not exceed the number of frames read, and the last source item
    is the last frame read. *)
Theorem resamplers_follow_index_mapping (N M k : Z) :
  1 <= N -> 1 <= M -> 0 <= k < M ->
  let pos := index_position N M k in
  let i := pos_i pos in
  let alpha := pos_alpha pos in
  (pos_p pos == inject_Z (k * N) / inject_Z M)%Q /\
  i = Qfloor (pos_p pos) /\
  (alpha == pos_p pos - inject_Z i)%Q /\
  (forall poses : list Camera.mat4,
      Z.of_nat (List.length poses) = N ->
      exists out x,
        Camera.resample_poses poses M = Ok out /\
        nth_error out (Z.to_nat k) = Some x /\
        (N - 1 <= i -> nth_error poses (Z.to_nat (N - 1)) = Some x) /\
        (0 <= i < N - 1 ->
         exists a b,
           nth_error poses (Z.to_nat i) = Some a /\
           nth_error poses (Z.to_nat (i + 1)) = Some b /\
           x = CameraSpec.pose_pair a b alpha)) /\
  (forall (Frame : Type) (addWeighted : Frame -> Q -> Frame -> Q -> Frame)
          (shape : Frame -> Z * Z) (cap : Video.capture Frame)
          (input_path output_path codec : string)
          (frames : list Frame) (fps : Q),
      Video.cap_opened cap = true ->
      String.length codec = 4%nat ->
      Video.read_frames cap = Ok (frames, N, fps) ->
      N <= Z.of_nat (List.length frames) ->
      exists w x,
        Video.resample_frames addWeighted shape cap true input_path
                              output_path M codec = (Some w, Ok tt) /\
        nth_error (Video.w_frames w) (Z.to_nat k) = Some x /\
        (N - 1 <= i ->
         nth_error frames (List.length frames - 1) = Some x) /\
        (0 <= i < N - 1 ->
         exists a b,
           nth_error frames (Z.to_nat i) = Some a /\
           nth_error frames (Z.to_nat (i + 1)) = Some b /\
           x = VideoSpec.frame_pair addWeighted a b alpha)).
Proof.
  intros HN HM Hk pos i alpha.
  split; [apply index_position_p|].
  split; [apply index_position_floor|].
  split; [apply index_position_alpha|].
  split.
  - intros poses Hlen.
    assert (Hne : poses <> []) by (destruct poses; [simpl in Hlen; lia | easy]).
    destruct (resample_poses_at poses M k Hne Hk)
      as (out & x & Hout & _ & Hnth & _ & Hlast & Hpair).
    rewrite Hlen in Hlast, Hpair.
    exists out, x. repeat (split; [assumption|]).
    intros [_ Hlt]. now apply Hpair.
  - intros Frame addWeighted shape cap input_path output_path codec frames fps
           Hopen Hcodec Hread Hlen.
    destruct (resample_frames_within addWeighted shape cap input_path
                output_path M k codec frames N fps)
      as (w & x & Hres & _ & Hnth & _ & Hlast & Hpair); try assumption.
    exists w, x. repeat (split; [assumption|]).
    intros [_ Hlt]. now apply Hpair.
Qed.

(** The pose scenario at its last target index, where the position 4/3
    falls behind the last interpolable neighbour and the output is [P1]; and
    a clip of three frames announced as two, where target index 1 of 3 is
    the blend of frames 0 and 1 with weight 2/3. *)
Lemma resamplers_follow_index_mapping_witness :
  (exists out x,
      Camera.resample_poses Scenario.poses 3 = Ok out /\
      nth_error out 2 = Some x /\
      nth_error Scenario.poses 1 = Some x) /\
  (exists w,
      Video.resample_frames Scenario.blend Scenario.pixel_shape
        (Video.Capture true 30%Q 2 1 1 [7; 9; 11]) true "in.mp4" "out.mp4"
        3 "mp4v" = (Some w, Ok tt) /\
      nth_error (Video.w_frames w) 1
      = Some (VideoSpec.frame_pair Scenario.blend 7 9 (2 # 3))).
Proof.
  split.
  - destruct (resamplers_follow_index_mapping 2 3 2)
      as (_ & _ & _ & Hposes & _); [lia | lia | lia |].
    destruct (Hposes Scenario.poses eq_refl)
      as (out & x & Hout & Hnth & Hlast & _).
    exists out, x. split; [exact Hout|]. split; [exact Hnth|].
    apply Hlast. rewrite index_position_i. reflexivity.
  - destruct (resamplers_follow_index_mapping 2 3 1)
      as (_ & _ & _ & _ & Hframes); [lia | lia | lia |].
    destruct (Hframes Z Scenario.blend Scenario.pixel_shape
                (Video.Capture true 30%Q 2 1 1 [7; 9; 11])
                "in.mp4" "out.mp4" "mp4v" [7; 9; 11] 30%Q)
      as (w & x & Hres & Hnth & _ & Hpair);
      [reflexivity | reflexivity | reflexivity | simpl; lia |].
    destruct Hpair as (a & b & Ha & Hb & ->).
    { rewrite index_position_i. change (1 * 2 / 3) with 0. lia. }
    injection Ha as <-. injection Hb as <-.
    exists w. split; [exact Hres | exact Hnth].
Defined.

(** C1, as the specification words it, fails for frames.  Three frames are
    read and the container announces two: the claim, with the source length
    3, puts the interpolation of the frames at 1 and 2 at target index 1 of
    3, and the code, with the announced 2, writes the blend of the frames at
    0 and 1. *)
Lemma frames_mapped_by_announced_count :
  ~ (exists w x a b,
        Video.resample_frames Scenario.blend Scenario.pixel_shape
          (Video.Capture true 30%Q 2 1 1 [7; 9; 11]) true "in.mp4" "out.mp4"
          3 "mp4v" = (Some w, Ok tt) /\
        nth_error (Video.w_frames w) 1 = Some x /\
        nth_error [7; 9; 11] (Z.to_nat (pos_i (index_position 3 3 1)))
        = Some a /\
        nth_error [7; 9; 11] (Z.to_nat (pos_i (index_position 3 3 1) + 1))
        = Some b /\
        x = VideoSpec.frame_pair Scenario.blend a b
              (pos_alpha (index_position 3 3 1))).
Proof.
  intros (w & x & a & b & Hres & Hx & Ha & Hb & Heq).
  vm_compute in Hres. injection Hres as <-.
  vm_compute in Hx, Ha, Hb.
  injection Hx as <-. injection Ha as <-. injection Hb as <-.
  vm_compute in Heq. discriminate.
Qed.




(** A container that announces three frames and yields one: [N] is taken
    from the announcement, the pair branch reaches past the decoded frames,
    and the function raises with nothing written.  This is why the frame
    statements assume that the count in use does not exceed the number of
    frames read. *)
Example announced_count_exceeds_frames :
  Video.resample_frames Scenario.blend Scenario.pixel_shape
    (Video.Capture true 30%Q 3 1 1 [7]) true "in.mp4" "out.mp4" 3 "mp4v"
  = (Some (Video.Writer 30%Q (1, 1) []), Raise IndexError).
Proof. reflexivity. Qed.



(** ** Identity resampling of poses *)

Section IdentityClaim.

Import Camera CameraSpec CameraFacts.

(** With weight 0 the rebuilt pose is the first neighbour, provided that
    neighbour is a pose of the data model. *)
Lemma pose_pair_zero (a b : mat4) :
  valid_pose a -> pose_pair a b 0 = a.
Proof.
  intros [Hrot Hrow].
  destruct (rot_to_quat_roundtrip _ Hrot) as [Hback Hunit].
  rewrite <- PoseFacts.interpolate_pose_pair. unfold interpolate.
  rewrite RMicromega.Q2R_0, (slerp_zero _ _ Hunit), Hback.
  destruct a as [[a00 a01 a02 a03] [a10 a11 a12 a13] [a20 a21 a22 a23] r3].
  simpl in Hrow. subst r3.
  unfold rt_to_mat4, mat4_to_rt, vadd, vscale; simpl.
  f_equal; f_equal; ring.
Qed.

(** C3, as the code has it.  Resampling a non-empty sequence of poses of the
    data model (orthonormal rotation of determinant +1, bottom row 0 0 0 1)
    to its own length gives the sequence back, item by item, in exact real
    arithmetic: every position is a whole number, so the weight is 0 at
    every index; the last index is the boundary hit and copies the last
    source pose, every other pose is rebuilt through its quaternion. *)
Theorem resample_identity (poses : list mat4) :
  poses <> [] -> Forall valid_pose poses ->
  let N := Z.of_nat (List.length poses) in
  resample_poses poses N = Ok poses /\
  (forall k, 0 <= k < N ->
     pos_i (index_position N N k) = k /\
     pos_alpha (index_position N N k) = 0%Q) /\
  (forall k x, 0 <= k < N ->
     nth_error poses (Z.to_nat k) = Some x ->
     exists out,
       resample_poses poses N = Ok out /\
       nth_error out (Z.to_nat k) = Some x).
Proof.
  intros Hne Hvalid N.
  assert (HN : 1 <= N) by (destruct poses; [easy | unfold N; simpl; lia]).
  assert (Hexact : forall k, 0 <= k < N ->
            pos_i (index_position N N k) = k /\
            pos_alpha (index_position N N k) = 0%Q).
  { intros k Hk. apply index_position_exact; lia. }
  assert (Hid : resample_poses poses N = Ok poses).
  { destruct (resample_poses_at poses N 0 Hne) as (out & _ & Hout & Hlen & _);
      [lia|].
    rewrite Hout. f_equal.
    apply nth_error_ext. intros n.
    destruct (Nat.lt_ge_cases n (List.length poses)) as [Hn|Hn].
    - destruct (resample_poses_at poses N (Z.of_nat n) Hne)
        as (out' & x & Hout' & _ & Hnth & _ & Hlast & Hpair); [lia|].
      rewrite Hout in Hout'. injection Hout' as <-.
      rewrite Nat2Z.id in Hnth. rewrite Hnth.
      fold N in Hlast, Hpair.
      destruct (Hexact (Z.of_nat n)) as [Hi Ha]; [lia|].
      rewrite Hi in Hlast, Hpair. rewrite Ha in Hpair.
      destruct (Z_lt_le_dec (Z.of_nat n) (N - 1)) as [Hlt|Hge].
      + destruct (Hpair Hlt) as (a & b & Hna & _ & ->).
        rewrite Nat2Z.id in Hna. rewrite Hna. f_equal.
        apply pose_pair_zero.
        rewrite Forall_forall in Hvalid. apply Hvalid.
        eapply nth_error_In, Hna.
      + rewrite <- (Hlast Hge). f_equal. lia.
    - rewrite (proj2 (nth_error_None out n)) by lia.
      now rewrite (proj2 (nth_error_None poses n)) by lia. }
  split; [exact Hid|]. split; [exact Hexact|].
  intros k x Hk Hx. exists poses. now split.
Qed.

Lemma scenario_poses_valid : Forall valid_pose Scenario.poses.
Proof.
  assert (Hrot : forall p, In p Scenario.poses -> valid_pose p).
  { intros p [<- | [<- | []]]; (split; [split|reflexivity]).
    - unfold mmul, transpose, identity3; simpl. f_equal; ring.
    - unfold det; simpl. ring.
    - unfold mmul, transpose, identity3; simpl. f_equal; ring.
    - unfold det; simpl. ring. }
  now apply Forall_forall.
Defined.

Lemma resample_identity_witness :
  resample_poses Scenario.poses 2 = Ok Scenario.poses.
Proof.
  apply (resample_identity Scenario.poses).
  - discriminate.
  - exact scenario_poses_valid.
Defined.

End IdentityClaim.

(** ** The derived frame rate *)

Section FrameRateClaim.

Import Video.
Local Open Scope Q_scope.

Lemma Qgtb_true (a b : Q) : Qgtb a b = true <-> b < a.
Proof.
  unfold Qgtb. rewrite negb_true_iff, <- not_true_iff_false, Qle_bool_iff.
  split; [apply Qnot_le_lt | apply Qlt_not_le].
Qed.

Lemma Qgtb_false (a b : Q) : Qgtb a b = false <-> a <= b.
Proof. unfold Qgtb. rewrite negb_false_iff. apply Qle_bool_iff. Qed.

Lemma inject_Z_pos (z : Z) : (0 < z)%Z -> 0 < inject_Z z.
Proof. intros Hz. change 0 with (inject_Z 0). now rewrite <- Zlt_Qlt. Qed.

Lemma fps_new_of_rate (N M : Z) (fps : Q) :
  (0 < N)%Z -> (0 < M)%Z -> 0 < fps ->
  fps_new_of N M fps == inject_Z M / (inject_Z N / fps) /\
  inject_Z M / fps_new_of N M fps == inject_Z N / fps.
Proof.
  intros HN HM Hfps.
  pose proof (inject_Z_pos N HN) as HNq.
  pose proof (inject_Z_pos M HM) as HMq.
  assert (Hd : 0 < inject_Z N / fps).
  { apply Qlt_shift_div_l; [exact Hfps|]. now rewrite Qmult_0_l. }
  unfold fps_new_of, duration_of.
  rewrite (proj2 (Qgtb_true fps 0) Hfps).
  rewrite (proj2 (Qgtb_true (Qred (inject_Z N / fps)) 0))
    by (now rewrite Qred_correct).
  rewrite !Qred_correct. split; [reflexivity|].
  field. repeat split; intros H; rewrite H in *;
    first [now apply (Qlt_irrefl 0) in Hfps
          | now apply (Qlt_irrefl 0) in HNq
          | now apply (Qlt_irrefl 0) in HMq].
Qed.

Lemma fps_new_of_no_rate (N M : Z) (fps : Q) :
  (0 < N)%Z -> (0 < M)%Z -> fps <= 0 ->
  fps_new_of N M fps == inject_Z M / inject_Z N /\
  inject_Z M / fps_new_of N M fps == inject_Z N.
Proof.
  intros HN HM Hfps.
  pose proof (inject_Z_pos N HN) as HNq.
  pose proof (inject_Z_pos M HM) as HMq.
  unfold fps_new_of, duration_of.
  rewrite (proj2 (Qgtb_false fps 0) Hfps).
  rewrite (proj2 (Qgtb_true (inject_Z N) 0) HNq).
  rewrite !Qred_correct. split; [reflexivity|].
  field. split; intros H; rewrite H in *;
    first [now apply (Qlt_irrefl 0) in HNq
          | now apply (Qlt_irrefl 0) in HMq].
Qed.

End FrameRateClaim.

Section FrameRateOfWriter.

Import Video.

Context {Frame : Type}.
Variable addWeighted : Frame -> Q -> Frame -> Q -> Frame.
Variable shape : Frame -> Z * Z.

(** Whenever the writer was opened, it was opened at the derived rate. *)
Lemma writer_rate (cap : capture Frame) (writer_opens : bool)
    (input_path output_path : string) (M : Z) (codec : string)
    (w : writer Frame) (r : result unit) :
  resample_frames addWeighted shape cap writer_opens input_path output_path
                  M codec = (Some w, r) ->
  exists frames N fps,
    read_frames cap = Ok (frames, N, fps) /\
    0 < N /\ 0 < M /\
    w_fps w = fps_new_of N M fps.
Proof.
  unfold resample_frames.
  destruct (negb (cap_opened cap)); [discriminate|].
  destruct (read_frames cap) as [[[frames N] fps]|e] eqn:Hread;
    [|discriminate].
  pose proof (VideoFacts.read_frames_inv_pos cap frames N fps Hread) as HN.
  simpl.
  destruct ((cap_width cap =? 0) || (cap_height cap =? 0)).
  - destruct (py_index frames 0) as [f0|e]; [|discriminate]. simpl.
    destruct (shape f0) as [h wd]. simpl.
    destruct (M <=? 0) eqn:EM; [discriminate|]. apply Z.leb_gt in EM.
    destruct (negb (String.length codec =? 4)%nat); [discriminate|].
    destruct (negb writer_opens); [discriminate|].
    destruct (append_loop _ _ _) as [out r']. intros [= <- _].
    exists frames, N, fps. now repeat split.
  - simpl.
    destruct (M <=? 0) eqn:EM; [discriminate|]. apply Z.leb_gt in EM.
    destruct (negb (String.length codec =? 4)%nat); [discriminate|].
    destruct (negb writer_opens); [discriminate|].
    destruct (append_loop _ _ _) as [out r']. intros [= <- _].
    exists frames, N, fps. now repeat split.
Qed.

End FrameRateOfWriter.

(** C4.  The writer is opened at [fps_new = M / T], where [T = N / fps_orig]
    when the frame rate in use is positive and [T = N] otherwise, so that
    [M] frames at the new rate last as long as the source: [M / fps_new = T].
    Ten frames at rate 30 resampled to five are written at rate 15. *)
Theorem frame_rate_preserves_duration (Frame : Type)
    (addWeighted : Frame -> Q -> Frame -> Q -> Frame)
    (shape : Frame -> Z * Z) (cap : Video.capture Frame) (writer_opens : bool)
    (input_path output_path : string) (M : Z) (codec : string)
    (w : Video.writer Frame) (r : result unit)
    (frames : list Frame) (N : Z) (fps_orig : Q) :
  Video.resample_frames addWeighted shape cap writer_opens input_path
                        output_path M codec = (Some w, r) ->
  Video.read_frames cap = Ok (frames, N, fps_orig) ->
  ((0 < fps_orig)%Q ->
   (Video.w_fps w == inject_Z M / (inject_Z N / fps_orig))%Q /\
   (inject_Z M / Video.w_fps w == inject_Z N / fps_orig)%Q) /\
  ((fps_orig <= 0)%Q ->
   (Video.w_fps w == inject_Z M / inject_Z N)%Q /\
   (inject_Z M / Video.w_fps w == inject_Z N)%Q) /\
  Video.fps_new_of 10 5 30 = 15%Q.
Proof.
  intros Hres Hread.
  destruct (writer_rate addWeighted shape cap writer_opens input_path
              output_path M codec w r Hres)
    as (frames' & N' & fps' & Hread' & HN & HM & Hfps).
  rewrite Hread in Hread'. injection Hread' as <- <- <-.
  rewrite Hfps. split; [|split].
  - intros Hpos. now apply fps_new_of_rate.
  - intros Hnone. now apply fps_new_of_no_rate.
  - reflexivity.
Qed.

(** The frame scenario: the writer that receives the five frames was opened
    at 5 / (10 / 30). *)
Lemma frame_rate_preserves_duration_witness :
  exists w,
    Video.resample_frames Scenario.blend Scenario.pixel_shape Scenario.clip
                          true "in.mp4" "out.mp4" 5 "mp4v" = (Some w, Ok tt) /\
    Video.w_fps w = 15%Q /\
    (Video.w_fps w == inject_Z 5 / (inject_Z 10 / 30))%Q.
Proof.
  eexists. split; [reflexivity|]. split; [reflexivity|].
  apply (frame_rate_preserves_duration Z Scenario.blend Scenario.pixel_shape
           Scenario.clip true "in.mp4" "out.mp4" 5 "mp4v" _ (Ok tt)
           (Video.cap_frames Scenario.clip) 10 30%Q);
    reflexivity.
Defined.

(** ** The output document of the pose tool *)

(** C9.  On a document whose poses can be resampled, the pose tool writes a
    document in which the [poses] field is the resampled sequence, the two
    count fields hold the source count and the target count, and every other
    field is as it was in the input; the two count fields are the only keys
    that may be new. *)
Theorem pose_document_passthrough
    (fs : gmap string (gmap string Camera.value)) (input output : string)
    (M : Z) (data : gmap string Camera.value) (poses : list Camera.mat4) :
  fs !! input = Some data ->
  data !! "poses" = Some (Camera.VPoses poses) ->
  poses <> [] -> 0 < M ->
  exists out_poses data_out r,
    Camera.main fs input output M = Some r /\
    Camera.exit_status r = 0 /\
    Camera.files r !! output = Some data_out /\
    Camera.resample_poses poses M = Ok out_poses /\
    data_out !! "poses" = Some (Camera.VPoses out_poses) /\
    data_out !! "original_num_poses"
    = Some (Camera.VInt (Z.of_nat (List.length poses))) /\
    data_out !! "target_num_poses" = Some (Camera.VInt M) /\
    (forall key : string,
        key <> "poses" -> key <> "original_num_poses" ->
        key <> "target_num_poses" ->
        data_out !! key = data !! key) /\
    dom data_out
    = ({["original_num_poses"]} ∪ {["target_num_poses"]} ∪ dom data
       : gset string).
Proof.
  intros Hin Hposes Hne HM.
  destruct (resample_poses_at poses M 0 Hne) as (out & _ & Hout & _); [lia|].
  unfold Camera.main. rewrite Hin, Hposes.
  replace (M <=? 0) with false by (symmetry; apply Z.leb_gt; lia).
  rewrite Hout.
  eexists out, _, _. split; [reflexivity|]. simpl.
  split; [reflexivity|].
  split; [apply lookup_insert_eq|].
  split; [reflexivity|].
  split; [now rewrite !lookup_insert_ne, lookup_insert_eq by discriminate|].
  split; [now rewrite lookup_insert_ne, lookup_insert_eq by discriminate|].
  split; [apply lookup_insert_eq|].
  split.
  - intros key Hk1 Hk2 Hk3.
    now rewrite !lookup_insert_ne by congruence.
  - rewrite !dom_insert_L.
    assert (Hdom : "poses" ∈ dom data) by (apply elem_of_dom; eauto).
    apply set_eq. intros key.
    rewrite !elem_of_union, !elem_of_singleton.
    intuition (subst; auto).
Qed.

(** A document with the scenario poses and one unrelated field. *)
Lemma pose_document_passthrough_witness :
  exists r data_out,
    Camera.main
      {["cameras.json" :=
          {["poses" := Camera.VPoses Scenario.poses]}
            ∪ {["fov" := Camera.VOther "60"]}]}
      "cameras.json" "out.json" 3 = Some r /\
    Camera.files r !! "out.json" = Some data_out /\
    data_out !! "fov" = Some (Camera.VOther "60") /\
    data_out !! "original_num_poses" = Some (Camera.VInt 2) /\
    data_out !! "target_num_poses" = Some (Camera.VInt 3).
Proof.
  destruct (pose_document_passthrough
              {["cameras.json" :=
                  {["poses" := Camera.VPoses Scenario.poses]}
                    ∪ {["fov" := Camera.VOther "60"]}]}
              "cameras.json" "out.json" 3
              ({["poses" := Camera.VPoses Scenario.poses]}
                 ∪ {["fov" := Camera.VOther "60"]})
              Scenario.poses)
    as (out & data_out & r & Hmain & _ & Hfile & _ & _ & HN & HM & Hrest & _).
  - apply lookup_singleton_eq.
  - apply lookup_union_Some_l, lookup_singleton_eq.
  - discriminate.
  - lia.
  - exists r, data_out. split; [exact Hmain|]. split; [exact Hfile|].
    split; [|split; [exact HN | exact HM]].
    rewrite Hrest by discriminate.
    rewrite lookup_union_r by (now apply lookup_singleton_ne).
    apply lookup_singleton_eq.
Defined.

(** ** Error reporting *)

Section ErrorClaims.

Import ErrorSpec.

Lemma pose_tool_errors (fs : gmap string (gmap string Camera.value))
    (input output : string) (M : Z) (c : category) :
  pose_category fs input M = Some c ->
  Camera.main fs input output M
  = Some (Camera.Run (pose_status c) [pose_report c input] [] fs).
Proof.
  unfold pose_category, Camera.main.
  destruct (fs !! input) as [data|]; [|now intros [= <-]].
  destruct (data !! "poses") as [v|]; [|now intros [= <-]].
  destruct (M <=? 0); [now intros [= <-]|].
  destruct v as [[|p ps]| |]; try discriminate.
  now intros [= <-].
Qed.

Lemma py_index_nil {A : Type} (i : Z) :
  py_index ([] : list A) i = Raise IndexError.
Proof.
  unfold py_index.
  destruct ((0 <=? _) && (_ <? _)); [|reflexivity].
  now destruct (Z.to_nat _).
Qed.

Lemma frame_item_nil {Frame : Type}
    (addWeighted : Frame -> Q -> Frame -> Q -> Frame) (N M k : Z) :
  Video.resample_item addWeighted [] N M k = Raise IndexError.
Proof.
  unfold Video.resample_item.
  destruct (_ <? 0); [apply py_index_nil|].
  destruct (_ >=? _); [apply py_index_nil|].
  now rewrite py_index_nil.
Qed.

Lemma range_head (M : Z) : 0 < M -> exists ks, range M = 0 :: ks.
Proof.
  intros HM. unfold range.
  destruct (Z.to_nat M) as [|n] eqn:E; [lia|].
  simpl. eauto.
Qed.

(** The categories whose message is the category's own: all of them, except
    the empty input of a container that announces frames. *)
Lemma video_tool_errors {Frame : Type}
    (addWeighted : Frame -> Q -> Frame -> Q -> Frame)
    (shape : Frame -> Z * Z) (inputs : gmap string (Video.capture Frame))
    (writer_opens : bool) (input output : string) (M : Z) (codec : string)
    (c : category) :
  video_category inputs writer_opens input M codec = Some c ->
  (c = EmptyInput ->
   exists cap, inputs !! input = Some cap /\ Video.cap_frame_count cap <= 0) ->
  Video.main addWeighted shape inputs writer_opens input output M codec
  = Video.Run (video_status c) [video_report c input output] [] None.
Proof.
  unfold video_category, Video.main, Video.resample_frames, Video.read_frames.
  destruct (inputs !! input) as [cap|]; [|now intros [= <-]].
  destruct (negb (Video.cap_opened cap)); [now intros [= <-]|].
  destruct (Video.cap_frames cap) as [|f0 rest] eqn:Eframes; simpl.
  - intros [= <-] Hann.
    destruct (Hann eq_refl) as (cap' & [= <-] & Hcount).
    replace (Video.cap_frame_count cap <=? 0) with true
      by (symmetry; apply Z.leb_le; exact Hcount).
    reflexivity.
  - intros Hc _. revert Hc.
    assert (Hrest : (Z.pos (Pos.of_succ_nat (List.length rest)) =? 0) = false)
      by (apply Z.eqb_neq; lia).
    destruct (Video.cap_frame_count cap <=? 0); simpl; rewrite ?Hrest; simpl;
      (destruct ((Video.cap_width cap =? 0) || (Video.cap_height cap =? 0));
       simpl;
       [ unfold py_index; simpl; destruct (shape f0) as [h w]; simpl | ];
       (destruct (M <=? 0); [now intros [= <-]|]);
       (destruct (negb (String.length codec =? 4)%nat); [discriminate|]);
       (destruct (negb writer_opens); [now intros [= <-]|discriminate])).
Qed.

(** A capture that opens and delivers no frame: the run ends with status
    1 and one line on the error stream, and no frame is written. *)
Lemma video_tool_empty_input {Frame : Type}
    (addWeighted : Frame -> Q -> Frame -> Q -> Frame)
    (shape : Frame -> Z * Z) (inputs : gmap string (Video.capture Frame))
    (writer_opens : bool) (input output : string) (M : Z) (codec : string)
    (cap : Video.capture Frame) :
  inputs !! input = Some cap ->
  Video.cap_opened cap = true ->
  Video.cap_frames cap = [] ->
  exists msg ow,
    Video.main addWeighted shape inputs writer_opens input output M codec
    = Video.Run 1 [msg] [] ow /\
    (forall w, ow = Some w -> Video.w_frames w = []).
Proof.
  intros Hin Hopen Hframes.
  unfold Video.main, Video.resample_frames, Video.read_frames.
  rewrite Hin, Hopen, Hframes. simpl.
  destruct (Video.cap_frame_count cap <=? 0); simpl;
    [eexists _, None; split; [reflexivity | discriminate]|].
  destruct ((Video.cap_width cap =? 0) || (Video.cap_height cap =? 0)); simpl;
    [eexists _, None; split; [reflexivity | discriminate]|].
  destruct (M <=? 0) eqn:EM;
    [eexists _, None; split; [reflexivity | discriminate]|].
  apply Z.leb_gt in EM.
  destruct (negb (String.length codec =? 4)%nat);
    [eexists _, None; split; [reflexivity | discriminate]|].
  destruct (negb writer_opens);
    [eexists _, None; split; [reflexivity | discriminate]|].
  destruct (range_head M EM) as [ks ->]. simpl.
  rewrite frame_item_nil.
  eexists _, (Some _). split; [reflexivity|].
  now intros w [= <-].
Qed.

Lemma pose_category_range (fs : gmap string (gmap string Camera.value))
    (input : string) (M : Z) (c : category) :
  pose_category fs input M = Some c ->
  c = InputNotFound \/ c = MissingField \/ c = InvalidTargetCount \/
  c = EmptyInput.
Proof.
  unfold pose_category.
  destruct (fs !! input) as [data|]; [|intros [= <-]; tauto].
  destruct (data !! "poses") as [v|]; [|intros [= <-]; tauto].
  destruct (M <=? 0); [intros [= <-]; tauto|].
  destruct v as [[|p ps]| |]; try discriminate.
  intros [= <-]; tauto.
Qed.

(** C8, as the code has it.  Every error category is reported exactly once
    and ends the run: the exit status is not zero, the pose tool writes no
    file and the video tool writes no frame.  The pose tool gives each of its
    categories a status of its own (2 for a missing input, 3 for a missing
    field, 4 for a non-positive target count, 1 for the exception an empty
    pose list raises); the video tool gives 2 to a missing input and the one
    generic status 1 to every other category.  The line reported is the
    category's own message and the video writer is never opened, except for
    the empty input of a container that announces a positive frame count:
    there nothing checks for emptiness and the run fails at a later step. *)
Theorem errors_reported_once_and_terminal :
  (forall (fs : gmap string (gmap string Camera.value))
          (input output : string) (M : Z) (c : category),
      pose_category fs input M = Some c ->
      exists r,
        Camera.main fs input output M = Some r /\
        Camera.stderr r = [pose_report c input] /\
        Camera.stdout r = [] /\
        Camera.files r = fs /\
        Camera.exit_status r = pose_status c /\
        Camera.exit_status r <> 0) /\
  (forall (fs1 fs2 : gmap string (gmap string Camera.value))
          (input1 input2 : string) (M1 M2 : Z) (c1 c2 : category),
      pose_category fs1 input1 M1 = Some c1 ->
      pose_category fs2 input2 M2 = Some c2 ->
      c1 <> c2 -> pose_status c1 <> pose_status c2) /\
  (forall (Frame : Type) (addWeighted : Frame -> Q -> Frame -> Q -> Frame)
          (shape : Frame -> Z * Z) (inputs : gmap string (Video.capture Frame))
          (writer_opens : bool) (input output : string) (M : Z)
          (codec : string) (c : category),
      video_category inputs writer_opens input M codec = Some c ->
      let r := Video.main addWeighted shape inputs writer_opens input output
                          M codec in
      (exists msg, Video.stderr r = [msg]) /\
      Video.stdout r = [] /\
      Video.exit_status r = match c with InputNotFound => 2 | _ => 1 end /\
      (forall w, Video.written r = Some w -> Video.w_frames w = []) /\
      ((c = EmptyInput ->
        exists cap,
          inputs !! input = Some cap /\ Video.cap_frame_count cap <= 0) ->
       Video.stderr r = [video_report c input output] /\
       Video.written r = None)).
Proof.
  split; [|split].
  - intros fs input output M c Hc.
    rewrite (pose_tool_errors fs input output M c Hc).
    eexists. split; [reflexivity|]. simpl.
    repeat (split; [reflexivity|]).
    destruct c; discriminate.
  - intros fs1 fs2 input1 input2 M1 M2 c1 c2 H1 H2 Hneq.
    apply pose_category_range in H1, H2.
    destruct H1 as [-> | [-> | [-> | ->]]];
      destruct H2 as [-> | [-> | [-> | ->]]];
      solve [discriminate | now contradiction Hneq].
  - intros Frame addWeighted shape inputs writer_opens input output M codec c
           Hc r.
    assert (Hpinned :
      (c = EmptyInput ->
       exists cap,
         inputs !! input = Some cap /\ Video.cap_frame_count cap <= 0) ->
      r = Video.Run (video_status c) [video_report c input output] [] None).
    { intros Hann. unfold r. now apply video_tool_errors. }
    assert (Hempty : c = EmptyInput ->
      exists msg ow, r = Video.Run 1 [msg] [] ow /\
                     (forall w, ow = Some w -> Video.w_frames w = [])).
    { intros ->. unfold r. revert Hc. unfold video_category.
      destruct (inputs !! input) as [cap|] eqn:Hin; [|discriminate].
      destruct (negb (Video.cap_opened cap)) eqn:Hopen; [discriminate|].
      apply negb_false_iff in Hopen.
      destruct (Video.cap_frames cap) as [|f0 rest] eqn:Hframes.
      - intros _. now apply (video_tool_empty_input _ _ _ _ _ _ _ _ cap).
      - simpl. destruct (M <=? 0); [discriminate|].
        destruct (negb (String.length codec =? 4)%nat); [discriminate|].
        destruct (negb writer_opens); discriminate. }
    assert (Hall : exists msg ow,
      r = Video.Run (match c with InputNotFound => 2 | _ => 1 end) [msg] [] ow /\
      (forall w, ow = Some w -> Video.w_frames w = [])).
    { destruct c;
        try (rewrite Hpinned by discriminate;
             eexists _, None; split; [reflexivity | discriminate]).
      now apply Hempty. }
    destruct Hall as (msg & ow & Hr & Hw).
    split; [exists msg; now rewrite Hr|].
    split; [now rewrite Hr|].
    split; [now rewrite Hr|].
    split; [intros w; rewrite Hr; apply Hw|].
    intros Hann. rewrite (Hpinned Hann). now split.
Qed.

(** A target count of zero given to the pose tool; a writer that does not
    open in the video tool; and a capture that opens without frames and
    without an announced count. *)
Lemma errors_reported_once_and_terminal_witness :
  Camera.main {["cameras.json" := {["poses" := Camera.VPoses Scenario.poses]}]}
              "cameras.json" "out.json" 0
  = Some (Camera.Run 4 ["Target frames must be > 0"] []
            {["cameras.json" := {["poses" := Camera.VPoses Scenario.poses]}]})
  /\
  Video.exit_status
    (Video.main Scenario.blend Scenario.pixel_shape
                {["in.mp4" := Scenario.clip]} false "in.mp4" "out.mp4" 5 "mp4v")
  = 1 /\
  Video.stderr
    (Video.main Scenario.blend Scenario.pixel_shape
                {["in.mp4" := Video.Capture true 0%Q 0 0 0 []]} true
                "in.mp4" "out.mp4" 5 "mp4v")
  = ["Error: Input video contains no frames."].
Proof.
  destruct errors_reported_once_and_terminal as (Hpose & _ & Hvideo).
  split; [|split].
  - destruct (Hpose
                {["cameras.json" :=
                    {["poses" := Camera.VPoses Scenario.poses]}]}
                "cameras.json" "out.json" 0 InvalidTargetCount)
      as (r & Hmain & Herr & Hout & Hfiles & Hstatus & _).
    { unfold pose_category. now rewrite !lookup_singleton_eq. }
    rewrite Hmain. f_equal. destruct r; simpl in *. now subst.
  - apply (Hvideo Z Scenario.blend Scenario.pixel_shape
                  {["in.mp4" := Scenario.clip]} false "in.mp4" "out.mp4" 5
                  "mp4v" EncoderOpenFailure).
    unfold video_category. now rewrite lookup_singleton_eq.
  - apply (Hvideo Z Scenario.blend Scenario.pixel_shape
                  {["in.mp4" := Video.Capture true 0%Q 0 0 0 []]} true
                  "in.mp4" "out.mp4" 5 "mp4v" EmptyInput).
    + unfold video_category. now rewrite lookup_singleton_eq.
    + intros _. eexists. split; [apply lookup_singleton_eq|]. simpl. lia.
Defined.

(** C8, as the specification words it, fails: a capture that does not open
    and a writer that does not open are different categories with the same
    exit status. *)
Lemma video_statuses_not_distinct : ~ video_statuses_distinct.
Proof.
  intros Hdistinct.
  apply (Hdistinct
           {["in.mp4" := Video.Capture false 0%Q 0 0 0 []]}
           {["in.mp4" := Scenario.clip]}
           true false "in.mp4" "in.mp4" "out.mp4" "out.mp4" 5 5
           "mp4v" "mp4v" DecoderOpenFailure EncoderOpenFailure).
  - unfold video_category. now rewrite lookup_singleton_eq.
  - unfold video_category. now rewrite lookup_singleton_eq.
  - discriminate.
  - unfold Video.main. now rewrite !lookup_singleton_eq.
Qed.

End ErrorClaims.

(** * Further properties of the code *)

(** ** The index mapping *)

Lemma index_position_p_le (N M k k' : Z) :
  0 <= N -> 0 < M -> k <= k' ->
  (pos_p (index_position N M k) <= pos_p (index_position N M k'))%Q.
Proof.
  intros HN HM Hk. rewrite !index_position_p.
  apply Qmult_le_compat_r.
  - rewrite <- Zle_Qle. apply Z.mul_le_mono_nonneg_r; assumption.
  - apply Qinv_le_0_compat. change 0%Q with (inject_Z 0).
    rewrite <- Zle_Qle. lia.
Qed.

(** X1.  The mapping from target index to source position never goes
    backwards: a larger target index has a position and a neighbour index
    at least as large. *)
Theorem index_mapping_monotone (N M k k' : Z) :
  0 <= N -> 0 < M -> k <= k' ->
  pos_i (index_position N M k) <= pos_i (index_position N M k') /\
  (pos_p (index_position N M k) <= pos_p (index_position N M k'))%Q.
Proof.
  intros HN HM Hk. split.
  - rewrite !index_position_i. apply Z.div_le_mono; [exact HM|].
    now apply Z.mul_le_mono_nonneg_r.
  - now apply index_position_p_le.
Qed.

Lemma index_mapping_monotone_witness :
  pos_i (index_position 10 4 1) <= pos_i (index_position 10 4 3).
Proof. apply (index_mapping_monotone 10 4 1 3); lia. Defined.

Lemma index_position_i_upper (N M k : Z) :
  0 < N -> 0 <= k < M -> pos_i (index_position N M k) <= N - 1.
Proof.
  intros HN Hk. rewrite index_position_i.
  assert (k * N / M < N); [|lia].
  apply Z.div_lt_upper_bound; [lia|]. nia.
Qed.

(** X2.  For a target index inside [[0,M)] the neighbour index stays inside
    the source, [0 <= i <= N-1], and the weight inside [[0,1)]. *)
Theorem index_mapping_bounds (N M k : Z) :
  1 <= N -> 0 <= k < M ->
  0 <= pos_i (index_position N M k) <= N - 1 /\
  (0 <= pos_alpha (index_position N M k) < 1)%Q.
Proof.
  intros HN Hk. split; [split|].
  - apply index_position_i_nonneg; lia.
  - apply index_position_i_upper; lia.
  - apply index_position_alpha_range.
Qed.

Lemma index_mapping_bounds_witness :
  0 <= pos_i (index_position 7 3 2) <= 7 - 1.
Proof. apply (index_mapping_bounds 7 3 2); lia. Defined.

(** The boundary branch is taken exactly from the target index at which
    [k * N] reaches [(N-1) * M]. *)
Lemma clamp_iff (N M k : Z) :
  0 < M ->
  N - 1 <= pos_i (index_position N M k) <-> (N - 1) * M <= k * N.
Proof.
  intros HM. rewrite index_position_i. split; intros H.
  - pose proof (Z.mul_div_le (k * N) M HM). nia.
  - apply Z.div_le_lower_bound; [exact HM | lia].
Qed.

(** ** The pose resampler at the ends, at whole positions and on small
    inputs *)

Lemma nonempty_length_pos {A : Type} (l : list A) :
  l <> [] -> 1 <= Z.of_nat (List.length l).
Proof. destruct l; [easy | simpl; lia]. Qed.

(** X3.  When the target count is at least the source count, the last
    output pose is the last source pose, unchanged. *)
Theorem upsampled_poses_keep_last (poses : list Camera.mat4) (M : Z) :
  poses <> [] ->
  Z.of_nat (List.length poses) <= M ->
  exists out,
    Camera.resample_poses poses M = Ok out /\
    nth_error out (Z.to_nat (M - 1))
    = nth_error poses (List.length poses - 1).
Proof.
  intros Hne HM.
  pose proof (nonempty_length_pos poses Hne) as HN.
  destruct (resample_poses_at poses M (M - 1) Hne)
    as (out & x & Hout & _ & Hnth & _ & Hlast & _); [lia|].
  exists out. split; [exact Hout|].
  rewrite Hnth, <- Hlast.
  - f_equal. lia.
  - apply clamp_iff; nia.
Qed.

Lemma upsampled_poses_keep_last_witness :
  exists out,
    Camera.resample_poses Scenario.poses 3 = Ok out /\
    nth_error out 2 = Some Scenario.P1.
Proof.
  destruct (upsampled_poses_keep_last Scenario.poses 3) as (out & Hout & Hlast).
  - discriminate.
  - simpl. lia.
  - exists out. split; [exact Hout | exact Hlast].
Defined.

(** X4.  When the target count is smaller than the source count, the
    boundary branch is never taken: every output pose is rebuilt from a
    pair of neighbours, and the last source pose is never copied. *)
Theorem downsampled_poses_all_rebuilt (poses : list Camera.mat4) (M k : Z) :
  0 <= k < M ->
  M < Z.of_nat (List.length poses) ->
  let N := Z.of_nat (List.length poses) in
  let i := pos_i (index_position N M k) in
  exists out a b,
    Camera.resample_poses poses M = Ok out /\
    i < N - 1 /\
    nth_error poses (Z.to_nat i) = Some a /\
    nth_error poses (Z.to_nat (i + 1)) = Some b /\
    nth_error out (Z.to_nat k)
    = Some (CameraSpec.pose_pair a b (pos_alpha (index_position N M k))).
Proof.
  intros Hk HM N i.
  assert (Hne : poses <> []) by (destruct poses; [simpl in HM; lia | easy]).
  destruct (resample_poses_at poses M k Hne Hk)
    as (out & x & Hout & _ & Hnth & _ & _ & Hpair).
  fold N i in Hpair.
  assert (Hi : i < N - 1).
  { destruct (Z_lt_le_dec i (N - 1)) as [Hlt|Hge]; [exact Hlt|].
    apply clamp_iff in Hge; [|lia]. fold N in HM. nia. }
  destruct (Hpair Hi) as (a & b & Ha & Hb & ->).
  now exists out, a, b.
Qed.

Lemma downsampled_poses_all_rebuilt_witness :
  exists out,
    Camera.resample_poses Scenario.poses 1 = Ok out /\
    nth_error out 0
    = Some (CameraSpec.pose_pair Scenario.P0 Scenario.P1 0).
Proof.
  destruct (downsampled_poses_all_rebuilt Scenario.poses 1 0)
    as (out & a & b & Hout & _ & Ha & Hb & Hnth).
  - lia.
  - simpl. lia.
  - injection Ha as <-. injection Hb as <-. now exists out.
Defined.

(** X5.  A target index whose position is a whole number [j] gets the
    source pose at [j] back, when that pose is a pose of the data model:
    resampling to a multiple of the source count keeps every source pose. *)
Theorem poses_at_whole_positions (poses : list Camera.mat4) (M k j : Z)
    (x : Camera.mat4) :
  0 <= k < M ->
  k * Z.of_nat (List.length poses) = j * M ->
  nth_error poses (Z.to_nat j) = Some x ->
  CameraSpec.valid_pose x ->
  exists out,
    Camera.resample_poses poses M = Ok out /\
    nth_error out (Z.to_nat k) = Some x.
Proof.
  intros Hk Hmul Hx Hvalid.
  assert (Hne : poses <> []) by (destruct poses; [now destruct (Z.to_nat j) | easy]).
  pose proof (nonempty_length_pos poses Hne) as HN.
  destruct (resample_poses_at poses M k Hne Hk)
    as (out & y & Hout & _ & Hnth & H0 & Hlast & Hpair).
  destruct (index_position_exact (Z.of_nat (List.length poses)) M k j)
    as [Hi Ha]; [lia | exact Hmul |].
  rewrite Hi in H0, Hlast, Hpair. rewrite Ha in Hpair.
  exists out. split; [exact Hout|]. rewrite Hnth.
  destruct (Z_lt_le_dec j (Z.of_nat (List.length poses) - 1)) as [Hlt|Hge].
  - destruct (Hpair Hlt) as (a & b & Hna & _ & ->).
    rewrite Hx in Hna. injection Hna as <-.
    f_equal. now apply pose_pair_zero.
  - rewrite <- (Hlast Hge), <- Hx. f_equal.
    assert (Z.to_nat j < List.length poses)%nat
      by (apply nth_error_Some; rewrite Hx; discriminate).
    lia.
Qed.

Lemma poses_at_whole_positions_witness :
  exists out,
    Camera.resample_poses Scenario.poses 4 = Ok out /\
    nth_error out 2 = Some Scenario.P1.
Proof.
  apply (poses_at_whole_positions Scenario.poses 4 2 1 Scenario.P1).
  - lia.
  - reflexivity.
  - reflexivity.
  - pose proof scenario_poses_valid as H.
    rewrite Forall_forall in H. apply H. right. now left.
Defined.

(** X6.  A source of one pose is repeated: every output item is that pose,
    whatever it holds. *)
Theorem single_pose_repeated (p : Camera.mat4) (M : Z) :
  Camera.resample_poses [p] M = Ok (repeat p (Z.to_nat M)).
Proof.
  destruct (PoseFacts.resample_poses_items [p] M) as (out & Hout & HF);
    [discriminate|].
  rewrite Hout. f_equal.
  pose proof (Forall2_length HF) as Hlen. rewrite range_length in Hlen.
  apply nth_error_ext. intros n.
  destruct (Nat.lt_ge_cases n (Z.to_nat M)) as [Hn|Hn].
  - destruct (resample_poses_at [p] M (Z.of_nat n))
      as (out' & x & Hout' & _ & Hnth & H0 & Hlast & _); [discriminate | lia |].
    rewrite Hout in Hout'. injection Hout' as <-.
    rewrite Nat2Z.id in Hnth. rewrite Hnth, nth_error_repeat by exact Hn.
    simpl in Hlast. specialize (Hlast H0). now injection Hlast as <-.
  - rewrite (proj2 (nth_error_None out n)) by lia.
    symmetry. apply nth_error_None. rewrite repeat_length. exact Hn.
Qed.

(** X7.  An empty pose list is rejected whatever the target count, and a
    non-empty one with a target count of zero or less gives the empty list
    without an exception. *)
Theorem resample_poses_degenerate (poses : list Camera.mat4) (M : Z) :
  (poses = [] ->
   Camera.resample_poses poses M = Raise (ValueError "No poses to resample")) /\
  (poses <> [] -> M <= 0 -> Camera.resample_poses poses M = Ok []).
Proof.
  split.
  - now intros ->.
  - intros Hne HM.
    destruct (PoseFacts.resample_poses_items poses M Hne) as (out & Hout & HF).
    pose proof (Forall2_length HF) as Hlen. rewrite range_length in Hlen.
    destruct out; [exact Hout | simpl in Hlen; lia].
Qed.

Lemma resample_poses_degenerate_witness :
  Camera.resample_poses Scenario.poses (-2) = Ok [].
Proof.
  apply (resample_poses_degenerate Scenario.poses (-2)); [discriminate | lia].
Defined.

(** ** Poses, rotations and quaternions *)

Section RotationExtras.

Import Camera CameraSpec CameraFacts.
Local Open Scope R_scope.

(** X8.  Splitting a pose and assembling it again: the rotation and the
    translation come back as given, and the 4x4 matrix comes back exactly
    when its bottom row is the row 0 0 0 1, which [mat4_to_rt] does not
    read and [rt_to_mat4] writes as a constant. *)
Theorem pose_split_assemble (Rm : mat3) (t : vec3) (mat : mat4) :
  mat4_to_rt (rt_to_mat4 Rm t) = (Rm, t) /\
  (rt_to_mat4 (fst (mat4_to_rt mat)) (snd (mat4_to_rt mat)) = mat
   <-> row3 mat = Row4 0 0 0 1).
Proof.
  split.
  - now destruct Rm, t.
  - destruct mat as [[a00 a01 a02 a03] [a10 a11 a12 a13] [a20 a21 a22 a23] r3].
    unfold rt_to_mat4, mat4_to_rt; simpl. split.
    + now intros [= <-].
    + now intros ->.
Qed.

Lemma unit_rotation (q : quat) : unit_quat q -> is_rotation (quat_to_rot q).
Proof.
  destruct q as [w x y z]. unfold unit_quat, qdot; simpl. intros Hu.
  split.
  - unfold mmul, transpose, identity3, quat_to_rot; simpl.
    f_equal; nsatz.
  - unfold det, quat_to_rot; simpl. nsatz.
Qed.

(** X9.  The matrix built from a quaternion of norm one is a rotation:
    orthonormal, with determinant +1. *)
Theorem quat_to_rot_is_rotation (q : quat) :
  qnorm q = 1 -> is_rotation (quat_to_rot q).
Proof. intros H. now apply unit_rotation, unit_of_qnorm. Qed.

Lemma quat_to_rot_is_rotation_witness :
  is_rotation (quat_to_rot (Quat (3 / 5) 0 (4 / 5) 0)).
Proof.
  apply (quat_to_rot_is_rotation (Quat (3 / 5) 0 (4 / 5) 0)).
  apply qnorm_axis. field.
Defined.

(** X10.  Whatever 3x3 matrix it is given, rotation or not, [rot_to_quat]
    returns a quaternion of norm one: in every branch the argument of the
    square root is positive and the component built from it is positive, so
    the normalisation divides by a positive number. *)
Theorem rot_to_quat_norm_one (m : mat3) : qnorm (rot_to_quat m) = 1.
Proof. apply qnorm_unit, rot_to_quat_unit. Qed.

End RotationExtras.

Section QuaternionRoundTrip.

Import Camera CameraSpec CameraFacts.
Local Open Scope R_scope.

Lemma sqrt_four_squares (a : R) : sqrt (4 * (a * a)) = 2 * Rabs a.
Proof.
  replace (4 * (a * a)) with (Rsqr (2 * a)) by (unfold Rsqr; ring).
  rewrite sqrt_Rsqr_abs, Rabs_mult, (Rabs_right 2) by lra. reflexivity.
Qed.

Lemma Rabs_cases (a : R) : a <> 0 -> (0 < a /\ Rabs a = a) \/ (a < 0 /\ Rabs a = - a).
Proof.
  intros Ha. destruct (Rtotal_order a 0) as [Hlt | [Heq | Hgt]].
  - right. split; [exact Hlt | now apply Rabs_left].
  - contradiction.
  - left. split; [exact Hgt | apply Rabs_right; lra].
Qed.

Ltac signed_branch a :=
  let Hpos := fresh "Hpos" in
  let Habs := fresh "Habs" in
  destruct (Rabs_cases a) as [[Hpos Habs] | [Hpos Habs]];
  [ nra
  | left; rewrite Habs; f_equal; field; lra
  | right; rewrite Habs; unfold qneg; simpl; f_equal; field; lra ].

(** What each branch of [rot_to_quat] extracts from the matrix of a unit
    quaternion, before the normalisation: the quaternion or its negative. *)
Lemma extracted_up_to_sign (q : quat) (P : quat -> Prop) :
  unit_quat q ->
  (forall q', q' = q \/ q' = qneg q -> P (qdiv_scalar q' (qnorm q'))) ->
  P (rot_to_quat (quat_to_rot q)).
Proof.
  intros Hu HP. destruct q as [w x y z].
  unfold unit_quat, qdot in Hu; simpl in Hu.
  assert (H5 : 0.5 = / 2) by lra. assert (H25 : 0.25 = / 4) by lra.
  apply rot_to_quat_cases; unfold quat_to_rot; simpl; intros Hc; cbv zeta;
    apply HP; rewrite ?H5, ?H25.
  - replace (w * w + x * x - y * y - z * z + (w * w - x * x + y * y - z * z)
             + (w * w - x * x - y * y + z * z) + 1)
      with (4 * (w * w)) by nra.
    rewrite sqrt_four_squares. signed_branch w.
  - replace (1 + (w * w + x * x - y * y - z * z)
             - (w * w - x * x + y * y - z * z)
             - (w * w - x * x - y * y + z * z))
      with (4 * (x * x)) by nra.
    rewrite sqrt_four_squares. signed_branch x.
  - replace (1 + (w * w - x * x + y * y - z * z)
             - (w * w + x * x - y * y - z * z)
             - (w * w - x * x - y * y + z * z))
      with (4 * (y * y)) by nra.
    rewrite sqrt_four_squares. signed_branch y.
  - replace (1 + (w * w - x * x - y * y + z * z)
             - (w * w + x * x - y * y - z * z)
             - (w * w - x * x + y * y - z * z))
      with (4 * (z * z)) by nra.
    rewrite sqrt_four_squares. signed_branch z.
Qed.

(** X11.  From a quaternion of norm one to its matrix and back gives the
    quaternion again, up to the sign that the matrix cannot record. *)
Theorem quaternion_roundtrip (q : quat) :
  qnorm q = 1 ->
  rot_to_quat (quat_to_rot q) = q \/ rot_to_quat (quat_to_rot q) = qneg q.
Proof.
  intros Hn. apply unit_of_qnorm in Hn.
  apply extracted_up_to_sign; [exact Hn|].
  intros q' [-> | ->].
  - left. now apply normalize_of_unit.
  - right. apply normalize_of_unit. now apply qneg_unit.
Qed.

Lemma quaternion_roundtrip_witness :
  rot_to_quat (quat_to_rot (Quat 0 (3 / 5) 0 (- 4 / 5))) = Quat 0 (3 / 5) 0 (- 4 / 5)
  \/ rot_to_quat (quat_to_rot (Quat 0 (3 / 5) 0 (- 4 / 5)))
     = qneg (Quat 0 (3 / 5) 0 (- 4 / 5)).
Proof.
  apply (quaternion_roundtrip (Quat 0 (3 / 5) 0 (- 4 / 5))).
  apply qnorm_axis. field.
Defined.

End QuaternionRoundTrip.

Section SlerpExtras.

Import Camera CameraSpec CameraFacts.
Local Open Scope R_scope.

Lemma rotation_of_assembled (Rm : mat3) (t : vec3) :
  fst (mat4_to_rt (rt_to_mat4 Rm t)) = Rm.
Proof. now destruct Rm. Qed.

Lemma weight_in_unit_interval (N M k : Z) :
  0 <= Q2R (pos_alpha (index_position N M k)) <= 1.
Proof.
  destruct (index_position_alpha_range N M k) as [Hlo Hhi].
  apply Qle_Rle in Hlo. apply Qlt_Rlt in Hhi.
  rewrite RMicromega.Q2R_0 in Hlo. rewrite RMicromega.Q2R_1 in Hhi. lra.
Qed.

(** The pose built by the interpolation branch is a pose of the data
    model, whatever the two neighbours hold. *)
Lemma pose_pair_valid (a b : mat4) (N M k : Z) :
  valid_pose (pose_pair a b (pos_alpha (index_position N M k))).
Proof.
  rewrite <- PoseFacts.interpolate_pose_pair. unfold interpolate. split; [|reflexivity].
  rewrite rotation_of_assembled.
  apply unit_rotation, unit_of_qnorm, slerp_unit.
  - rewrite rot_to_quat_unit. lra.
  - rewrite rot_to_quat_unit. lra.
  - apply weight_in_unit_interval.
Qed.

(** X12.  Every pose that [resample_poses] returns is either the last
    source pose, copied, or a pose of the data model (orthonormal rotation
    of determinant +1 and bottom row 0 0 0 1), also when the source
    matrices are not rotations.  So valid sources give valid outputs. *)
Theorem resampled_poses_valid (poses : list mat4) (M : Z) :
  poses <> [] ->
  exists out,
    resample_poses poses M = Ok out /\
    Forall (fun x => nth_error poses (List.length poses - 1) = Some x \/
                     valid_pose x) out /\
    (Forall valid_pose poses -> Forall valid_pose out).
Proof.
  intros Hne.
  destruct (PoseFacts.resample_poses_items poses M Hne) as (out & Hout & HF).
  pose proof (Forall2_length HF) as Hlen. rewrite range_length in Hlen.
  assert (Hall : Forall (fun x => nth_error poses (List.length poses - 1) = Some x
                                  \/ valid_pose x) out).
  { apply Forall_forall. intros x Hx.
    destruct (In_nth_error _ _ Hx) as [n Hn].
    assert (Hlt : (n < List.length out)%nat)
      by (apply nth_error_Some; rewrite Hn; discriminate).
    destruct (resample_poses_at poses M (Z.of_nat n) Hne)
      as (out' & y & Hout' & _ & Hnth & _ & Hlast & Hpair); [lia|].
    rewrite Hout in Hout'. injection Hout' as <-.
    rewrite Nat2Z.id, Hn in Hnth. injection Hnth as <-.
    set (N := Z.of_nat (List.length poses)) in *.
    destruct (Z_lt_le_dec (pos_i (index_position N M (Z.of_nat n))) (N - 1))
      as [Hi|Hi].
    - right. destruct (Hpair Hi) as (a & b & _ & _ & ->).
      apply pose_pair_valid.
    - left. rewrite <- (Hlast Hi). f_equal. unfold N. lia. }
  exists out. split; [exact Hout|]. split; [exact Hall|].
  intros Hvalid. rewrite Forall_forall in *. intros x Hx.
  destruct (Hall x Hx) as [Hlast | Hv]; [|exact Hv].
  apply Hvalid. eapply nth_error_In, Hlast.
Qed.

Lemma resampled_poses_valid_witness :
  exists out,
    resample_poses Scenario.poses 5 = Ok out /\ Forall valid_pose out.
Proof.
  destruct (resampled_poses_valid Scenario.poses 5) as (out & Hout & _ & Hv).
  - discriminate.
  - exists out. split; [exact Hout | exact (Hv scenario_poses_valid)].
Defined.

Lemma qnorm_neg (q : quat) : qnorm (qneg q) = qnorm q.
Proof. unfold qnorm, qneg; simpl. f_equal. ring. Qed.

Lemma qdiv_neg (q : quat) (a : R) :
  qdiv_scalar (qneg q) a = qneg (qdiv_scalar q a).
Proof. unfold qdiv_scalar, qneg; simpl. f_equal; unfold Rdiv; ring. Qed.

Lemma qneg_involutive (q : quat) : qneg (qneg q) = q.
Proof. destruct q. unfold qneg; simpl. f_equal; ring. Qed.

Lemma dot_nonzero_norms (p q : quat) :
  qdot p q <> 0 -> 0 < qnorm p /\ 0 < qnorm q.
Proof.
  intros Hd.
  assert (Hp : p <> zero_quat).
  { intros ->. apply Hd. unfold qdot, zero_quat; simpl. ring. }
  assert (Hq : q <> zero_quat).
  { intros ->. apply Hd. unfold qdot, zero_quat; simpl. ring. }
  split; apply qnorm_pos, nonzero_dot_pos; assumption.
Qed.

(** X13.  Negating the second quaternion does not change the result: the
    hemisphere alignment takes the short way in both cases.  The
    hypothesis leaves out a dot product of exactly zero, where the code
    negates neither. *)
Theorem slerp_ignores_sign (q0 q1 : quat) (t : R) :
  qdot q0 q1 <> 0 ->
  quat_slerp q0 (qneg q1) t = quat_slerp q0 q1 t.
Proof.
  intros Hd. destruct (dot_nonzero_norms q0 q1 Hd) as [Hn0 Hn1].
  assert (Hdn : qdot (qdiv_scalar q0 (qnorm q0)) (qdiv_scalar q1 (qnorm q1)) <> 0).
  { rewrite qdot_div by lra. intros H. apply Hd.
    apply (Rmult_eq_compat_r (qnorm q0 * qnorm q1)) in H.
    field_simplify in H; lra. }
  unfold quat_slerp. rewrite qnorm_neg, qdiv_neg, qdot_neg_r.
  set (a := qdiv_scalar q0 (qnorm q0)) in *.
  set (b := qdiv_scalar q1 (qnorm q1)) in *.
  destruct (Rgtb 0 (qdot a b)) eqn:E1; destruct (Rgtb 0 (- qdot a b)) eqn:E2;
    try apply Rgtb_true in E1; try apply Rgtb_false in E1;
    try apply Rgtb_true in E2; try apply Rgtb_false in E2;
    try lra.
  - reflexivity.
  - rewrite qneg_involutive, Ropp_involutive. reflexivity.
Qed.

Lemma slerp_ignores_sign_witness :
  quat_slerp (Quat 1 0 0 0) (qneg (Quat 1 1 0 0)) (1 / 3)
  = quat_slerp (Quat 1 0 0 0) (Quat 1 1 0 0) (1 / 3).
Proof.
  apply (slerp_ignores_sign (Quat 1 0 0 0) (Quat 1 1 0 0) (1 / 3)).
  unfold qdot; simpl. lra.
Defined.

(** X14.  On the spherical branch the result turns at constant speed: its
    angle to the first quaternion is the fraction [t] of the whole angle,
    and its angle to the second is the fraction [1 - t]. *)
Theorem slerp_constant_speed (q0 q1 : quat) (t : R) :
  qnorm q0 = 1 -> qnorm q1 = 1 ->
  0 <= qdot q0 q1 <= DOT_THRESHOLD ->
  qdot q0 (quat_slerp q0 q1 t) = cos (acos (qdot q0 q1) * t) /\
  qdot q1 (quat_slerp q0 q1 t) = cos (acos (qdot q0 q1) * (1 - t)).
Proof.
  intros H0 H1 [Hlo Hhi].
  apply unit_of_qnorm in H0, H1. unfold DOT_THRESHOLD in Hhi.
  unfold quat_slerp.
  rewrite (normalize_of_unit q0 H0), (normalize_of_unit q1 H1).
  set (d := qdot q0 q1) in *.
  replace (Rgtb 0 d) with false by (symmetry; apply Rgtb_false; lra).
  replace (Rgtb d DOT_THRESHOLD) with false
    by (symmetry; apply Rgtb_false; unfold DOT_THRESHOLD; lra).
  replace (Rmax (Rmin d 1) (-1)) with d
    by (rewrite Rmin_left, Rmax_left by lra; reflexivity).
  destruct (ortho_dot q0 q1 H0 H1) as [Hcc Hac]. fold d in Hcc, Hac.
  set (c := qsub q1 (qmul_scalar q0 d)) in *.
  assert (Hpos : 0 < 1 - d * d) by nra.
  assert (Hs : 0 < sqrt (1 - d * d)) by now apply sqrt_lt_R0.
  assert (Hss : sqrt (1 - d * d) * sqrt (1 - d * d) = 1 - d * d)
    by (apply sqrt_sqrt; lra).
  assert (Hn : qnorm c = sqrt (1 - d * d)) by (rewrite qnorm_sqrt, Hcc; reflexivity).
  assert (Hbc : qdot q1 c = 1 - d * d).
  { unfold unit_quat in H0, H1.
    replace (qdot q1 c) with (qdot q1 q1 - d * qdot q0 q1)
      by (unfold c, qdot, qsub, qmul_scalar; simpl; ring).
    fold d. rewrite H1. ring. }
  set (th := acos d * t).
  assert (E0 : forall p : quat,
             qdot p (qadd (qmul_scalar q0 (cos th))
                          (qmul_scalar (qdiv_scalar c (qnorm c)) (sin th)))
             = qdot p q0 * cos th + qdot p c / qnorm c * sin th).
  { intros p. unfold qdot, qadd, qmul_scalar, qdiv_scalar; simpl.
    rewrite Hn. field. lra. }
  split.
  - rewrite E0. unfold unit_quat in H0. rewrite H0, Hac, Hn.
    unfold Rdiv. ring.
  - rewrite E0.
    replace (qdot q1 q0) with d by (unfold d, qdot; ring).
    rewrite Hbc, Hn.
    replace (acos d * (1 - t)) with (acos d - th) by (unfold th; ring).
    rewrite cos_minus, cos_acos, sin_acos by lra.
    unfold Rsqr.
    set (S := sqrt (1 - d * d)) in *.
    rewrite <- Hss. field. lra.
Qed.

Lemma slerp_constant_speed_witness :
  qdot (Quat 1 0 0 0) (quat_slerp (Quat 1 0 0 0) (Quat 0 0 1 0) (1 / 2))
  = cos (acos (qdot (Quat 1 0 0 0) (Quat 0 0 1 0)) * (1 / 2)).
Proof.
  apply (slerp_constant_speed (Quat 1 0 0 0) (Quat 0 0 1 0) (1 / 2)).
  - apply qnorm_axis; lra.
  - apply qnorm_axis; lra.
  - unfold qdot, DOT_THRESHOLD; simpl. lra.
Defined.

Lemma qnorm_scale (c : R) (q : quat) :
  0 <= c -> qnorm (qscale c q) = c * qnorm q.
Proof.
  intros Hc. unfold qnorm, qscale; simpl.
  replace (c * qw q * (c * qw q) + c * qx q * (c * qx q)
           + c * qy q * (c * qy q) + c * qz q * (c * qz q))
    with (c * c * (qw q * qw q + qx q * qx q + qy q * qy q + qz q * qz q))
    by ring.
  rewrite sqrt_mult_alt by nra. now rewrite sqrt_square.
Qed.

Lemma normalize_scale (c : R) (q : quat) :
  0 < c -> q <> zero_quat ->
  qdiv_scalar (qscale c q) (qnorm (qscale c q)) = qdiv_scalar q (qnorm q).
Proof.
  intros Hc Hq. rewrite qnorm_scale by lra.
  pose proof (qnorm_pos q (nonzero_dot_pos q Hq)) as Hn.
  unfold qdiv_scalar, qscale; simpl. f_equal; field; lra.
Qed.

(** X15.  Only the directions of the two inputs matter: scaling either of
    them by a positive factor leaves the result unchanged, since both are
    normalised first. *)
Theorem slerp_ignores_scale (q0 q1 : quat) (c0 c1 t : R) :
  0 < c0 -> 0 < c1 -> q0 <> zero_quat -> q1 <> zero_quat ->
  quat_slerp (qscale c0 q0) (qscale c1 q1) t = quat_slerp q0 q1 t.
Proof.
  intros Hc0 Hc1 H0 H1. unfold quat_slerp.
  now rewrite !normalize_scale.
Qed.

Lemma slerp_ignores_scale_witness :
  quat_slerp (qscale 2 (Quat 1 0 0 0)) (qscale 3 (Quat 0 1 0 0)) (1 / 4)
  = quat_slerp (Quat 1 0 0 0) (Quat 0 1 0 0) (1 / 4).
Proof.
  apply (slerp_ignores_scale (Quat 1 0 0 0) (Quat 0 1 0 0) 2 3 (1 / 4)).
  - lra.
  - lra.
  - intros H. apply (f_equal qw) in H. simpl in H. lra.
  - intros H. apply (f_equal qx) in H. simpl in H. lra.
Defined.

(** Two equal neighbours that are poses of the data model interpolate to
    that pose, whatever the weight. *)
Lemma pose_pair_same (a : mat4) (alpha : Q) :
  valid_pose a -> pose_pair a a alpha = a.
Proof.
  intros [Hrot Hrow].
  destruct (rot_to_quat_roundtrip _ Hrot) as [Hback Hunit].
  rewrite <- PoseFacts.interpolate_pose_pair. unfold interpolate.
  rewrite (slerp_same _ _ Hunit), Hback.
  destruct a as [[a00 a01 a02 a03] [a10 a11 a12 a13] [a20 a21 a22 a23] r3].
  simpl in Hrow. subst r3.
  unfold rt_to_mat4, mat4_to_rt, vadd, vscale; simpl.
  f_equal; f_equal; ring.
Qed.

(** X16.  A camera that does not move stays where it is: when every source
    pose is the same pose of the data model, every output pose is that
    pose, in exact real arithmetic (the poses before the boundary are
    rebuilt through the quaternion, so binary64 results agree with the
    source up to rounding only). *)
Theorem constant_poses_stay_constant (a : mat4) (poses : list mat4) (M : Z) :
  poses <> [] -> valid_pose a -> Forall (eq a) poses ->
  resample_poses poses M = Ok (repeat a (Z.to_nat M)).
Proof.
  intros Hne Hvalid Hall. rewrite Forall_forall in Hall.
  destruct (PoseFacts.resample_poses_items poses M Hne) as (out & Hout & HF).
  rewrite Hout. f_equal.
  pose proof (Forall2_length HF) as Hlen. rewrite range_length in Hlen.
  apply nth_error_ext. intros n.
  destruct (Nat.lt_ge_cases n (Z.to_nat M)) as [Hn|Hn].
  - destruct (resample_poses_at poses M (Z.of_nat n) Hne)
      as (out' & x & Hout' & _ & Hnth & _ & Hlast & Hpair); [lia|].
    rewrite Hout in Hout'. injection Hout' as <-.
    rewrite Nat2Z.id in Hnth. rewrite Hnth, nth_error_repeat by exact Hn.
    f_equal.
    set (N := Z.of_nat (List.length poses)) in *.
    destruct (Z_lt_le_dec (pos_i (index_position N M (Z.of_nat n))) (N - 1))
      as [Hi|Hi].
    + destruct (Hpair Hi) as (p & q & Hp & Hq & ->).
      rewrite <- (Hall p (nth_error_In _ _ Hp)).
      rewrite <- (Hall q (nth_error_In _ _ Hq)).
      now apply pose_pair_same.
    + symmetry. apply Hall. eapply nth_error_In, (Hlast Hi).
  - rewrite (proj2 (nth_error_None out n)) by lia.
    symmetry. apply nth_error_None. rewrite repeat_length. exact Hn.
Qed.

Lemma constant_poses_stay_constant_witness :
  resample_poses [Scenario.P1; Scenario.P1; Scenario.P1] 2
  = Ok [Scenario.P1; Scenario.P1].
Proof.
  apply (constant_poses_stay_constant Scenario.P1
           [Scenario.P1; Scenario.P1; Scenario.P1] 2).
  - discriminate.
  - pose proof scenario_poses_valid as H.
    rewrite Forall_forall in H. apply H. right. now left.
  - repeat constructor.
Defined.

End SlerpExtras.

(** ** The frame resampler: what is written, and when it stops *)

Lemma append_loop_outcome {A : Type} (body : Z -> result A) (ks : list Z) :
  forall (out out' : list A) (r : result unit),
  append_loop body ks out = (out', r) ->
  (r = Ok tt -> List.length out' = (List.length out + List.length ks)%nat) /\
  (forall e, r = Raise e ->
             (List.length out' < List.length out + List.length ks)%nat).
Proof.
  induction ks as [|k ks IH]; intros out out' r; simpl.
  - intros [= <- <-]. split; [intros _; lia | discriminate].
  - destruct (body k) as [a|e0].
    + intros H. destruct (IH _ _ _ H) as [Hok Hraise].
      rewrite length_app in Hok, Hraise. simpl in Hok, Hraise. split.
      * intros Hr. specialize (Hok Hr). lia.
      * intros e Hr. specialize (Hraise e Hr). lia.
    + intros [= <- <-]. split; [discriminate | intros e _; lia].
Qed.

Lemma append_loop_stops {A : Type} (body : Z -> result A) (ks : list Z)
    (k0 : Z) (e0 : exn) :
  In k0 ks -> body k0 = Raise e0 ->
  forall out : list A,
  exists out' k e,
    append_loop body ks out = (out', Raise e) /\ In k ks /\ body k = Raise e.
Proof.
  intros Hin Hk0. induction ks as [|k ks IH]; [easy|]. intros out. simpl.
  destruct (body k) as [a|e] eqn:Ek.
  - destruct Hin as [-> | Hin]; [congruence|].
    destruct (IH Hin (out ++ [a])) as (out' & k' & e' & Hl & Hin' & Hk').
    exists out', k', e'. split; [exact Hl|]. split; [now right | exact Hk'].
  - exists out, k, e. split; [reflexivity|]. split; [now left | exact Ek].
Qed.

Lemma py_index_raises_index_error {A : Type} (l : list A) (i : Z) (e : exn) :
  py_index l i = Raise e -> e = IndexError.
Proof.
  unfold py_index.
  destruct ((0 <=? _) && (_ <? _)); [|now intros [= <-]].
  destruct (nth_error l _); [discriminate | now intros [= <-]].
Qed.

Section FrameExtras.

Import Video VideoSpec.

Context {Frame : Type}.
Variable addWeighted : Frame -> Q -> Frame -> Q -> Frame.
Variable shape : Frame -> Z * Z.

Lemma frame_item_raises_index_error (frames : list Frame) (N M k : Z)
    (e : exn) :
  resample_item addWeighted frames N M k = Raise e -> e = IndexError.
Proof.
  unfold resample_item, bind.
  destruct (_ <? 0); [apply py_index_raises_index_error|].
  destruct (_ >=? _); [apply py_index_raises_index_error|].
  destruct (py_index frames (pos_i (index_position N M k))) as [a|e1] eqn:E1.
  - destruct (py_index frames (pos_i (index_position N M k) + 1))
      as [b|e2] eqn:E2; [discriminate|].
    intros [= <-]. now apply py_index_raises_index_error in E2.
  - intros [= <-]. now apply py_index_raises_index_error in E1.
Qed.

(** How [resample_frames] can end: before the writer exists, with an
    exception; or with the writer opened at the derived rate and holding
    what the loop wrote. *)
Lemma resample_frames_inv (cap : capture Frame) (writer_opens : bool)
    (input_path output_path : string) (M : Z) (codec : string)
    (ow : option (writer Frame)) (r : result unit) :
  resample_frames addWeighted shape cap writer_opens input_path output_path
                  M codec = (ow, r) ->
  (ow = None /\ exists e, r = Raise e) \/
  (exists frames N fps size out,
      read_frames cap = Ok (frames, N, fps) /\
      0 < N /\ 0 < M /\ writer_opens = true /\
      ow = Some (Writer (fps_new_of N M fps) size out) /\
      append_loop (resample_item addWeighted frames N M) (range M) []
      = (out, r)).
Proof.
  unfold resample_frames.
  destruct (negb (cap_opened cap)); [intros [= <- <-]; left; eauto|].
  destruct (read_frames cap) as [[[frames N] fps]|e] eqn:Hread;
    [|intros [= <- <-]; left; eauto].
  pose proof (VideoFacts.read_frames_inv_pos cap frames N fps Hread) as HN.
  simpl.
  assert (Htail : forall size : Z * Z,
    (let '(fs, n, m, fps_new, sz) :=
       (frames, N, M, fps_new_of N M fps, size) in
     let '(out, r') :=
       append_loop (resample_item addWeighted fs n m) (range m) [] in
     (Some (Writer fps_new sz out), r')) = (ow, r) ->
    0 < M -> writer_opens = true ->
    exists frames' N' fps' size' out,
      Ok (frames, N, fps) = Ok (frames', N', fps') /\
      0 < N' /\ 0 < M /\ writer_opens = true /\
      ow = Some (Writer (fps_new_of N' M fps') size' out) /\
      append_loop (resample_item addWeighted frames' N' M) (range M) []
      = (out, r)).
  { intros size H HM Hw. simpl in H.
    destruct (append_loop _ _ _) as [out r'] eqn:Hloop.
    injection H as <- <-.
    exists frames, N, fps, size, out. now repeat split. }
  destruct ((cap_width cap =? 0) || (cap_height cap =? 0)).
  - destruct (py_index frames 0) as [f0|e]; [|intros [= <- <-]; left; eauto].
    simpl. destruct (shape f0) as [h wd]. simpl.
    destruct (M <=? 0) eqn:EM; [intros [= <- <-]; left; eauto|].
    apply Z.leb_gt in EM.
    destruct (negb (String.length codec =? 4)%nat);
      [intros [= <- <-]; left; eauto|].
    destruct writer_opens; simpl; [|intros [= <- <-]; left; eauto].
    intros H. right. now apply (Htail (wd, h)).
  - simpl.
    destruct (M <=? 0) eqn:EM; [intros [= <- <-]; left; eauto|].
    apply Z.leb_gt in EM.
    destruct (negb (String.length codec =? 4)%nat);
      [intros [= <- <-]; left; eauto|].
    destruct writer_opens; simpl; [|intros [= <- <-]; left; eauto].
    intros H. right. now apply (Htail (cap_width cap, cap_height cap)).
Qed.

Lemma fps_new_of_pos (N M : Z) (fps : Q) :
  0 < N -> 0 < M -> (0 < fps_new_of N M fps)%Q.
Proof.
  intros HN HM.
  pose proof (inject_Z_pos N HN) as HNq.
  pose proof (inject_Z_pos M HM) as HMq.
  destruct (Qlt_le_dec 0 fps) as [Hpos|Hnone].
  - destruct (fps_new_of_rate N M fps HN HM Hpos) as [-> _].
    apply Qlt_shift_div_l.
    + apply Qlt_shift_div_l; [exact Hpos | now rewrite Qmult_0_l].
    + now rewrite Qmult_0_l.
  - destruct (fps_new_of_no_rate N M fps HN HM Hnone) as [-> _].
    apply Qlt_shift_div_l; [exact HNq | now rewrite Qmult_0_l].
Qed.

(** X17.  When the video tool exits with status 0, the writer was opened,
    at a positive frame rate, and received exactly the target count of
    frames, whatever the container announced. *)
Theorem video_success_writes_target_count
    (inputs : gmap string (capture Frame)) (writer_opens : bool)
    (input output : string) (M : Z) (codec : string) :
  exit_status (main addWeighted shape inputs writer_opens input output M codec)
  = 0 ->
  exists w,
    written (main addWeighted shape inputs writer_opens input output M codec)
    = Some w /\
    Z.of_nat (List.length (w_frames w)) = M /\
    (0 < w_fps w)%Q.
Proof.
  unfold main. destruct (inputs !! input) as [cap|]; [|discriminate].
  destruct (resample_frames _ _ _ _ _ _ _ _) as [ow r] eqn:Hres.
  destruct r as [[]|e]; [|discriminate]. intros _. simpl.
  destruct (resample_frames_inv _ _ _ _ _ _ _ _ Hres)
    as [[_ [e He]] | (frames & N & fps & size & out & _ & HN & HM & _ & -> & Hloop)];
    [discriminate|].
  eexists. split; [reflexivity|]. simpl.
  destruct (append_loop_outcome _ _ _ _ _ Hloop) as [Hok _].
  rewrite (Hok eq_refl), range_length. simpl.
  split; [lia | now apply fps_new_of_pos].
Qed.

(** X18.  When the video tool exits with status 1 after the writer was
    opened, the loop was cut short: the writer holds fewer frames than the
    target count, and they stay in the output. *)
Theorem video_failure_leaves_partial_output
    (inputs : gmap string (capture Frame)) (writer_opens : bool)
    (input output : string) (M : Z) (codec : string) (w : writer Frame) :
  exit_status (main addWeighted shape inputs writer_opens input output M codec)
  = 1 ->
  written (main addWeighted shape inputs writer_opens input output M codec)
  = Some w ->
  Z.of_nat (List.length (w_frames w)) < M /\
  stdout (main addWeighted shape inputs writer_opens input output M codec) = [].
Proof.
  unfold main. destruct (inputs !! input) as [cap|]; [|discriminate].
  destruct (resample_frames _ _ _ _ _ _ _ _) as [ow r] eqn:Hres.
  destruct r as [[]|e]; [discriminate|]. intros _. simpl. intros ->.
  destruct (resample_frames_inv _ _ _ _ _ _ _ _ Hres)
    as [[Hnone _] | (frames & N & fps & size & out & _ & HN & HM & _ & Hw & Hloop)];
    [discriminate|].
  injection Hw as ->. simpl.
  destruct (append_loop_outcome _ _ _ _ _ Hloop) as [_ Hraise].
  specialize (Hraise e eq_refl). rewrite range_length in Hraise. simpl in Hraise.
  split; [lia | reflexivity].
Qed.

End FrameExtras.

(** Four frames announced, two delivered, six asked for: two frames are
    written before the loop reaches past the delivered ones. *)
Lemma video_failure_leaves_partial_output_witness :
  exists w,
    Video.written
      (Video.main Scenario.blend Scenario.pixel_shape
                  {["in.mp4" := Video.Capture true 30%Q 4 1 1 [7; 9]]}
                  true "in.mp4" "out.mp4" 6 "mp4v") = Some w /\
    Video.w_frames w = [7; 8] /\
    Z.of_nat (List.length (Video.w_frames w)) < 6.
Proof.
  eexists. split; [|split].
  - unfold Video.main. rewrite lookup_singleton_eq. reflexivity.
  - reflexivity.
  - eapply (video_failure_leaves_partial_output Scenario.blend
              Scenario.pixel_shape
              {["in.mp4" := Video.Capture true 30%Q 4 1 1 [7; 9]]}
              true "in.mp4" "out.mp4" 6 "mp4v").
    + unfold Video.main. now rewrite lookup_singleton_eq.
    + unfold Video.main. rewrite lookup_singleton_eq. reflexivity.
Defined.

Lemma video_success_writes_target_count_witness :
  exists w,
    Video.written
      (Video.main Scenario.blend Scenario.pixel_shape
                  {["in.mp4" := Scenario.clip]} true "in.mp4" "out.mp4" 5 "mp4v")
    = Some w /\
    Z.of_nat (List.length (Video.w_frames w)) = 5 /\
    (0 < Video.w_fps w)%Q.
Proof.
  apply (video_success_writes_target_count Scenario.blend Scenario.pixel_shape
           {["in.mp4" := Scenario.clip]} true "in.mp4" "out.mp4" 5 "mp4v").
  unfold Video.main. now rewrite lookup_singleton_eq.
Defined.

Lemma py_index_past_end {A : Type} (l : list A) (i : Z) :
  Z.of_nat (List.length l) <= i -> py_index l i = Raise IndexError.
Proof.
  intros Hi. unfold py_index.
  replace (i <? 0) with false by (symmetry; apply Z.ltb_ge; lia).
  replace (i <? Z.of_nat (List.length l)) with false
    by (symmetry; apply Z.ltb_ge; lia).
  now rewrite andb_false_r.
Qed.

(** A target index whose neighbour is the last of [L] frames, for a count
    [N] above [L] and a target count of at least [N]. *)
Lemma index_reaching (L N M : Z) :
  1 <= L -> L < N -> N <= M ->
  exists k, 0 <= k < M /\ pos_i (index_position N M k) = L - 1.
Proof.
  intros HL HN HM.
  exists (((L - 1) * M + N - 1) / N).
  pose proof (Z.div_mod ((L - 1) * M + N - 1) N ltac:(lia)) as Hdm.
  pose proof (Z.mod_pos_bound ((L - 1) * M + N - 1) N ltac:(lia)) as Hr.
  set (q := ((L - 1) * M + N - 1) / N) in *.
  set (r := ((L - 1) * M + N - 1) mod N) in *.
  assert (Hlo : (L - 1) * M <= q * N) by nia.
  assert (Hhi : q * N < L * M) by nia.
  split.
  - split; [|nia].
    destruct (Z_lt_le_dec q 0) as [Hneg|]; [|assumption]. nia.
  - rewrite index_position_i.
    symmetry. apply (Z.div_unique (q * N) M (L - 1) (q * N - (L - 1) * M)); lia.
Qed.

Section FrameCountExtras.

Import Video VideoSpec.

Context {Frame : Type}.
Variable addWeighted : Frame -> Q -> Frame -> Q -> Frame.
Variable shape : Frame -> Z * Z.

(** With the capture and the writer opening, a codec of four characters,
    at least one frame and a positive target count, the loop is entered. *)
Lemma resample_frames_enters_loop (cap : capture Frame)
    (input_path output_path : string) (M : Z) (codec : string)
    (frames : list Frame) (N : Z) (fps : Q) :
  cap_opened cap = true ->
  read_frames cap = Ok (frames, N, fps) ->
  frames <> [] -> 0 < M -> String.length codec = 4%nat ->
  exists size,
    resample_frames addWeighted shape cap true input_path output_path M codec
    = (Some (Writer (fps_new_of N M fps) size
               (fst (append_loop (resample_item addWeighted frames N M)
                                 (range M) []))),
       snd (append_loop (resample_item addWeighted frames N M) (range M) [])).
Proof.
  intros Hopen Hread Hne HM Hcodec.
  unfold resample_frames. rewrite Hopen, Hread, Hcodec. simpl.
  replace (M <=? 0) with false by (symmetry; apply Z.leb_gt; lia).
  destruct ((cap_width cap =? 0) || (cap_height cap =? 0)).
  - destruct frames as [|f0 rest]; [easy|].
    unfold py_index at 1. simpl.
    destruct (shape f0) as [h w]. simpl.
    replace (M <=? 0) with false by (symmetry; apply Z.leb_gt; lia).
    exists (w, h). now destruct (append_loop _ _ _).
  - simpl. exists (cap_width cap, cap_height cap).
    now destruct (append_loop _ _ _).
Qed.

(** X19.  When the container announces more frames than the capture
    delivers and the target count is at least the announced count, the loop
    reaches past the delivered frames: [resample_frames] raises
    [IndexError] after the writer was opened, with fewer frames written
    than asked for. *)
Theorem announced_count_too_large (cap : capture Frame)
    (input_path output_path : string) (M : Z) (codec : string) :
  cap_opened cap = true ->
  1 <= Z.of_nat (List.length (cap_frames cap)) ->
  Z.of_nat (List.length (cap_frames cap)) < cap_frame_count cap ->
  cap_frame_count cap <= M ->
  String.length codec = 4%nat ->
  exists w,
    resample_frames addWeighted shape cap true input_path output_path M codec
    = (Some w, Raise IndexError) /\
    Z.of_nat (List.length (w_frames w)) < M.
Proof.
  intros Hopen HL HN HM Hcodec.
  set (frames := cap_frames cap) in *.
  set (N := cap_frame_count cap) in *.
  assert (Hread : read_frames cap = Ok (frames, N, cap_fps cap)).
  { unfold read_frames. fold N.
    now replace (N <=? 0) with false by (symmetry; apply Z.leb_gt; lia). }
  assert (Hne : frames <> []) by (destruct frames; [simpl in HL; lia | easy]).
  destruct (resample_frames_enters_loop cap input_path output_path M codec
              frames N (cap_fps cap)) as [size Hres];
    try assumption; try lia.
  destruct (index_reaching (Z.of_nat (List.length frames)) N M)
    as (k0 & Hk0 & Hi0); try lia.
  assert (Hbody : resample_item addWeighted frames N M k0 = Raise IndexError).
  { unfold resample_item. rewrite Hi0.
    replace (Z.of_nat (List.length frames) - 1 <? 0) with false
      by (symmetry; apply Z.ltb_ge; lia).
    replace (Z.of_nat (List.length frames) - 1 >=? N - 1) with false
      by (symmetry; rewrite Z.geb_leb; apply Z.leb_gt; lia).
    destruct (PoseFacts.nth_error_in_range frames
                (Z.to_nat (Z.of_nat (List.length frames) - 1))) as [a Ha];
      [lia|].
    rewrite (py_index_front frames _ a) by (assumption || lia).
    replace (Z.of_nat (List.length frames) - 1 + 1)
      with (Z.of_nat (List.length frames)) by lia.
    now rewrite py_index_past_end by lia. }
  assert (Hin : In k0 (range M)).
  { unfold range. apply in_map_iff. exists (Z.to_nat k0).
    split; [lia | apply in_seq; lia]. }
  destruct (append_loop_stops _ _ _ _ Hin Hbody [])
    as (out & k & e & Hloop & _ & Hk).
  apply frame_item_raises_index_error in Hk. subst e.
  rewrite Hloop in Hres. simpl in Hres.
  eexists. split; [exact Hres|]. simpl.
  destruct (append_loop_outcome _ _ _ _ _ Hloop) as [_ Hraise].
  specialize (Hraise IndexError eq_refl).
  rewrite range_length in Hraise. simpl in Hraise. lia.
Qed.

(** X20.  When the container announces no more frames than the capture
    delivers, the function returns normally with the target count of frames
    written; where the boundary branch is taken, the frame written is the
    last delivered frame, not the last announced one. *)
Theorem announced_count_within_frames (cap : capture Frame)
    (input_path output_path : string) (M : Z) (codec : string) :
  cap_opened cap = true ->
  1 <= cap_frame_count cap ->
  cap_frame_count cap <= Z.of_nat (List.length (cap_frames cap)) ->
  0 < M ->
  String.length codec = 4%nat ->
  exists w,
    resample_frames addWeighted shape cap true input_path output_path M codec
    = (Some w, Ok tt) /\
    Z.of_nat (List.length (w_frames w)) = M /\
    (forall k, 0 <= k < M ->
       cap_frame_count cap - 1 <= pos_i (index_position (cap_frame_count cap) M k) ->
       nth_error (w_frames w) (Z.to_nat k)
       = nth_error (cap_frames cap) (List.length (cap_frames cap) - 1)).
Proof.
  intros Hopen HN HL HM Hcodec.
  set (frames := cap_frames cap) in *.
  set (N := cap_frame_count cap) in *.
  assert (Hread : read_frames cap = Ok (frames, N, cap_fps cap)).
  { unfold read_frames. fold N.
    now replace (N <=? 0) with false by (symmetry; apply Z.leb_gt; lia). }
  assert (Hne : frames <> []) by (destruct frames; [simpl in HL; lia | easy]).
  destruct (VideoFacts.resample_frames_ok addWeighted shape cap true
              input_path output_path M codec frames N (cap_fps cap))
    as (size & out & Hres & HF); try assumption; try reflexivity.
  eexists. split; [exact Hres|]. simpl.
  pose proof (Forall2_length HF) as Hlen. rewrite range_length in Hlen.
  split; [lia|].
  intros k Hk Hclamp.
  destruct (Forall2_nth_error_l _ _ _ _ _ HF (range_nth M k Hk))
    as (x & Hnth & Hitem).
  destruct (PoseFacts.nth_error_in_range frames (List.length frames - 1))
    as [y Hy]; [lia|].
  rewrite (VideoFacts.frame_item_last addWeighted frames N M k y) in Hitem;
    [| apply index_position_i_nonneg; lia | exact Hclamp | exact Hy].
  injection Hitem as <-. now rewrite Hnth, Hy.
Qed.

(** X21.  When blending with weights 1 and 0 gives the first frame, a
    target index whose position is a whole number [j] gets the source frame
    at [j]: no blend artefact at exact hits. *)
Theorem frames_at_whole_positions (cap : capture Frame)
    (input_path output_path : string) (M k j : Z) (codec : string)
    (N : Z) (fps : Q) (x : Frame) :
  (forall a b : Frame, addWeighted a 1%Q b 0%Q = a) ->
  cap_opened cap = true ->
  read_frames cap = Ok (cap_frames cap, N, fps) ->
  N = Z.of_nat (List.length (cap_frames cap)) ->
  String.length codec = 4%nat ->
  0 <= k < M ->
  k * N = j * M ->
  nth_error (cap_frames cap) (Z.to_nat j) = Some x ->
  exists w,
    resample_frames addWeighted shape cap true input_path output_path M codec
    = (Some w, Ok tt) /\
    nth_error (w_frames w) (Z.to_nat k) = Some x.
Proof.
  intros Hblend Hopen Hread HN Hcodec Hk Hmul Hx.
  assert (Hne : cap_frames cap <> [])
    by (destruct (cap_frames cap); [now destruct (Z.to_nat j) | easy]).
  destruct (resample_frames_at addWeighted shape cap input_path output_path
              M k codec (cap_frames cap) N fps)
    as (w & y & Hres & _ & _ & Hnth & H0 & Hlast & Hpair); try assumption.
  destruct (index_position_exact N M k j) as [Hi Ha]; [lia | exact Hmul |].
  rewrite Hi in H0, Hlast, Hpair. rewrite Ha in Hpair.
  exists w. split; [exact Hres|]. rewrite Hnth.
  destruct (Z_lt_le_dec j (N - 1)) as [Hlt|Hge].
  - destruct (Hpair Hlt) as (a & b & Hna & _ & ->).
    rewrite Hx in Hna. injection Hna as <-.
    f_equal. unfold frame_pair. apply Hblend.
  - rewrite <- (Hlast Hge), <- Hx. f_equal.
    assert (Z.to_nat j < List.length (cap_frames cap))%nat
      by (apply nth_error_Some; rewrite Hx; discriminate).
    lia.
Qed.

End FrameCountExtras.

Lemma announced_count_too_large_witness :
  exists w,
    Video.resample_frames Scenario.blend Scenario.pixel_shape
      (Video.Capture true 30%Q 4 1 1 [7; 9]) true "in.mp4" "out.mp4" 6 "mp4v"
    = (Some w, Raise IndexError) /\
    Z.of_nat (List.length (Video.w_frames w)) < 6.
Proof.
  apply (announced_count_too_large Scenario.blend Scenario.pixel_shape
           (Video.Capture true 30%Q 4 1 1 [7; 9]) "in.mp4" "out.mp4" 6 "mp4v");
    simpl; (reflexivity || lia).
Defined.

Lemma announced_count_within_frames_witness :
  exists w,
    Video.resample_frames Scenario.blend Scenario.pixel_shape
      (Video.Capture true 30%Q 2 1 1 [7; 9; 11]) true "in.mp4" "out.mp4" 4 "mp4v"
    = (Some w, Ok tt) /\
    Z.of_nat (List.length (Video.w_frames w)) = 4.
Proof.
  destruct (announced_count_within_frames Scenario.blend Scenario.pixel_shape
              (Video.Capture true 30%Q 2 1 1 [7; 9; 11]) "in.mp4" "out.mp4" 4
              "mp4v") as (w & Hres & Hlen & _);
    simpl; try reflexivity; try lia.
  now exists w.
Defined.

Lemma scenario_blend_first (a b : Z) : Scenario.blend a 1%Q b 0%Q = a.
Proof.
  unfold Scenario.blend.
  assert (H : (inject_Z a * 1 + inject_Z b * 0 + (1 # 2)
               == (a * 2 + 1) # 2)%Q).
  { unfold Qeq, Qplus, Qmult, inject_Z; simpl. lia. }
  rewrite (Qfloor_comp _ _ H). unfold Qfloor.
  symmetry. apply (Z.div_unique (a * 2 + 1) 2 a 1); lia.
Defined.

(** The frame scenario: target index 2 of 5 falls on source frame 4 of
    10. *)
Lemma frames_at_whole_positions_witness :
  exists w,
    Video.resample_frames Scenario.blend Scenario.pixel_shape Scenario.clip
                          true "in.mp4" "out.mp4" 5 "mp4v" = (Some w, Ok tt) /\
    nth_error (Video.w_frames w) 2 = Some 40.
Proof.
  apply (frames_at_whole_positions Scenario.blend Scenario.pixel_shape
           Scenario.clip "in.mp4" "out.mp4" 5 2 4 "mp4v" 10 30%Q 40).
  - exact scenario_blend_first.
  - reflexivity.
  - reflexivity.
  - reflexivity.
  - reflexivity.
  - lia.
  - reflexivity.
  - reflexivity.
Defined.

Section SingleFrame.

Import Video VideoSpec.

Context {Frame : Type}.
Variable addWeighted : Frame -> Q -> Frame -> Q -> Frame.
Variable shape : Frame -> Z * Z.

(** X22.  A capture that delivers one frame, announced or not, gives that
    frame at every target index; nothing is blended. *)
Theorem single_frame_repeated (cap : capture Frame)
    (input_path output_path : string) (M : Z) (codec : string) (f : Frame) :
  cap_opened cap = true ->
  cap_frames cap = [f] ->
  cap_frame_count cap <= 1 ->
  0 < M ->
  String.length codec = 4%nat ->
  exists w,
    resample_frames addWeighted shape cap true input_path output_path M codec
    = (Some w, Ok tt) /\
    w_frames w = repeat f (Z.to_nat M).
Proof.
  intros Hopen Hframes Hcount HM Hcodec.
  assert (Hread : exists fps, read_frames cap = Ok (cap_frames cap, 1, fps)).
  { unfold read_frames. rewrite Hframes.
    destruct (cap_frame_count cap <=? 0) eqn:E.
    - simpl. eauto.
    - apply Z.leb_gt in E. replace (cap_frame_count cap) with 1 by lia. eauto. }
  destruct Hread as [fps Hread].
  assert (Hne : cap_frames cap <> []) by (rewrite Hframes; discriminate).
  assert (HN : 1 = Z.of_nat (List.length (cap_frames cap)))
    by (now rewrite Hframes).
  destruct (resample_frames_at addWeighted shape cap input_path output_path
              M 0 codec (cap_frames cap) 1 fps)
    as (w & _ & Hres & _ & Hlen & _); try assumption; try lia.
  exists w. split; [exact Hres|].
  apply nth_error_ext. intros n.
  destruct (Nat.lt_ge_cases n (Z.to_nat M)) as [Hn|Hn].
  - destruct (resample_frames_at addWeighted shape cap input_path output_path
                M (Z.of_nat n) codec (cap_frames cap) 1 fps)
      as (w' & x & Hres' & _ & _ & Hnth & H0 & Hlast & _);
      try assumption; try lia.
    rewrite Hres in Hres'. injection Hres' as <-.
    rewrite Nat2Z.id in Hnth. rewrite Hnth, nth_error_repeat by exact Hn.
    specialize (Hlast H0). rewrite Hframes in Hlast. simpl in Hlast.
    now injection Hlast as <-.
  - rewrite (proj2 (nth_error_None (w_frames w) n)) by lia.
    symmetry. apply nth_error_None. rewrite repeat_length. exact Hn.
Qed.

End SingleFrame.

Lemma single_frame_repeated_witness :
  exists w,
    Video.resample_frames Scenario.blend Scenario.pixel_shape
      (Video.Capture true 0%Q 0 0 0 [7]) true "in.mp4" "out.mp4" 3 "mp4v"
    = (Some w, Ok tt) /\
    Video.w_frames w = [7; 7; 7].
Proof.
  apply (single_frame_repeated Scenario.blend Scenario.pixel_shape
           (Video.Capture true 0%Q 0 0 0 [7]) "in.mp4" "out.mp4" 3 "mp4v" 7);
    simpl; (reflexivity || lia).
Defined.

(** ** The pose tool as a whole *)

Section PoseToolExtras.

Import ErrorSpec.

(** X23.  The pose tool writes to the output path and to nothing else: any
    other path holds what it held before, and a run that ends with a
    non-zero status leaves every file as it was. *)
Theorem pose_tool_touches_only_output
    (fs : gmap string (gmap string Camera.value)) (input output : string)
    (M : Z) (r : Camera.run) :
  Camera.main fs input output M = Some r ->
  (forall path : string,
      path <> output -> Camera.files r !! path = fs !! path) /\
  (Camera.exit_status r <> 0 -> Camera.files r = fs).
Proof.
  unfold Camera.main.
  destruct (fs !! input) as [data|]; [|now intros [= <-]].
  destruct (data !! "poses") as [v|]; [|now intros [= <-]].
  destruct (M <=? 0); [now intros [= <-]|].
  destruct v as [poses| |]; try discriminate.
  destruct (Camera.resample_poses poses M) as [out|e]; [|now intros [= <-]].
  intros [= <-]. simpl. split.
  - intros path Hpath. now rewrite lookup_insert_ne.
  - intros H. now contradiction H.
Qed.

Lemma pose_tool_touches_only_output_witness :
  Camera.files
    (Camera.Run 4 ["Target frames must be > 0"] []
       {["a.json" := {["poses" := Camera.VPoses Scenario.poses]}]})
  = {["a.json" := {["poses" := Camera.VPoses Scenario.poses]}]}.
Proof.
  apply (pose_tool_touches_only_output
           {["a.json" := {["poses" := Camera.VPoses Scenario.poses]}]}
           "a.json" "b.json" 0).
  - unfold Camera.main. now rewrite !lookup_singleton_eq.
  - discriminate.
Defined.

(** X24.  The pose tool ends with status 0 exactly when none of its error
    conditions holds; it then prints nothing on the error stream and
    reports the target count of poses as written. *)
Theorem pose_tool_success
    (fs : gmap string (gmap string Camera.value)) (input output : string)
    (M : Z) (r : Camera.run) :
  Camera.main fs input output M = Some r ->
  (Camera.exit_status r = 0 <-> pose_category fs input M = None) /\
  (Camera.exit_status r = 0 ->
   Camera.stderr r = [] /\
   Camera.stdout r = [("Wrote " ++ pretty M ++ " poses to " ++ output)%string]).
Proof.
  unfold Camera.main, pose_category.
  destruct (fs !! input) as [data|];
    [|intros [= <-]; simpl; split; [split|]; discriminate].
  destruct (data !! "poses") as [v|];
    [|intros [= <-]; simpl; split; [split|]; discriminate].
  destruct (M <=? 0) eqn:EM;
    [intros [= <-]; simpl; split; [split|]; discriminate|].
  apply Z.leb_gt in EM.
  destruct v as [poses| |]; try discriminate.
  destruct poses as [|p ps].
  - intros [= <-]. simpl. split; [split|]; discriminate.
  - destruct (resample_poses_at (p :: ps) M 0) as (out & _ & Hout & Hlen & _);
      [discriminate | lia |].
    rewrite Hout. intros [= <-].
    replace (Z.of_nat (List.length out)) with M by lia.
    simpl. split; [now split|].
    intros _. now split.
Qed.

Lemma pose_tool_success_witness :
  exists r,
    Camera.main {["a.json" := {["poses" := Camera.VPoses Scenario.poses]}]}
                "a.json" "b.json" 3 = Some r /\
    Camera.stdout r = [("Wrote " ++ pretty 3 ++ " poses to b.json")%string].
Proof.
  destruct (resample_poses_at Scenario.poses 3 0) as (out & _ & Hout & _);
    [discriminate | lia |].
  eexists. split.
  - unfold Camera.main. rewrite lookup_singleton_eq. cbv beta iota.
    rewrite lookup_singleton_eq. cbv beta iota zeta.
    change (3 <=? 0) with false. cbv iota.
    rewrite Hout. reflexivity.
  - eapply (pose_tool_success
              {["a.json" := {["poses" := Camera.VPoses Scenario.poses]}]}
              "a.json" "b.json" 3).
    + unfold Camera.main. rewrite lookup_singleton_eq. cbv beta iota.
      rewrite lookup_singleton_eq. cbv beta iota zeta.
      change (3 <=? 0) with false. cbv iota.
      rewrite Hout. reflexivity.
    + reflexivity.
Defined.

End PoseToolExtras.

(** ** Identity resampling needs poses of the data model *)

Section IdentityCounterexample.

Import Camera CameraSpec.
Local Open Scope R_scope.

(** C3, as the specification words it, fails.  Two copies of a matrix that
    scales by 2 are a non-empty sequence that the tool accepts; resampled to
    two poses, the first output is rebuilt from a unit quaternion, so its
    rotation block is orthonormal and it is not the source matrix. *)
Lemma scaled_pose_not_reproduced :
  let S := Mat4 (Row4 2 0 0 0) (Row4 0 2 0 0) (Row4 0 0 2 0) (Row4 0 0 0 1) in
  ~ (exists out,
        resample_poses [S; S] 2 = Ok out /\ nth_error out 0 = Some S).
Proof.
  intros S (out & Hout & HS).
  destruct (resample_poses_at [S; S] 2 0)
    as (out' & x & Hout' & _ & Hnth & _ & _ & Hpair);
    [discriminate | lia |].
  rewrite Hout in Hout'. injection Hout' as <-.
  change (Z.to_nat 0) with 0%nat in Hnth.
  rewrite HS in Hnth. injection Hnth as <-.
  destruct Hpair as (a & b & _ & _ & Hx).
  { change (Z.of_nat (List.length [S; S])) with 2%Z.
    rewrite index_position_i. change (0 * 2 / 2)%Z with 0%Z. lia. }
  assert (Hvalid : valid_pose S) by (rewrite Hx; apply pose_pair_valid).
  destruct Hvalid as [[Horth _] _].
  apply (f_equal m00) in Horth.
  unfold mmul, transpose, identity3, S in Horth. simpl in Horth. lra.
Qed.

End IdentityCounterexample.
